(** * rallyboard clock app: a shallow embedding of [apps/app.py]

    The program reads one JSON configuration from standard input, computes a
    wall-clock deadline, loads a font, and then, until the deadline passes,
    renders the local time [HH:MM:SS] centred on a 128x64 RGB canvas and
    writes the PNG encoding of each canvas to standard output behind a
    4-byte big-endian length header.

    Conventions of the embedding.
    - Python [str] values are Rocq strings holding the UTF-8 bytes of the
      text; standard input is the text returned by [sys.stdin.read()].
    - Python [int] is [Z].  Python [float] is [pyfloat]: NaN, the two
      infinities, or a finite value kept as an exact rational.  The rounding
      of IEEE doubles is not modelled; the two places where the magnitude of a
      number changes control flow are: an [int] too large for a double raises
      [OverflowError] when added to a float, and a float literal too large
      for a double reads as infinity.
    - Exceptions are values of [exn]; statements run in a state-and-exception
      monad [M] over the mutable state [State] and the environment [Env]
      (standard input, the wall clock, the time zone, the font files, the
      PNG encoder).  The output stream is taken to be open and writable.
    - PIL is the library of the program's time, whose [ImageDraw] has
      [textsize]; a font is what the program asks of it (a measure and a
      glyph mask), the PNG encoder is a function of the environment, and
      [ImageFont.load_default()] always gives a font.  The interpreter's
      recursion limit is not modelled.
    - The [while] loop takes fuel; running out of fuel is the separate
      outcome [OutOfFuel], never confused with a return.  *)

From Stdlib Require Import ZArith QArith Qround Qabs List String Ascii Bool Lia Lqa.
From Stdlib.Strings Require Import Byte.
Import ListNotations.
Local Open Scope string_scope.
Local Open Scope list_scope.
Local Open Scope Z_scope.

Local Infix "+++" := String.append (at level 60, right associativity).

(** ** Exceptions *)

Inductive exn : Type :=
| JSONDecodeError
| AttributeError
| TypeError
| OverflowError
| StructError
| OSError
| ImportError
| MemoryError
| KeyboardInterrupt.

Inductive result (A : Type) : Type :=
| Ok (a : A)
| Raise (e : exn).
Arguments Ok {A} a.
Arguments Raise {A} e.

(** ** Python numbers *)

Inductive pyfloat : Type :=
| FNan
| FInf (negative : bool)
| FFin (q : Q).

(** An [int] converts to a double when it rounds (to nearest, ties to even)
    below [2^1024]; the largest double is [2^1024 - 2^971]. *)
Definition DBL_OVERFLOW : Z := 2 ^ 1024 - 2 ^ 970.

Definition float_of_int (n : Z) : result pyfloat :=
  if Z.abs n <? DBL_OVERFLOW then Ok (FFin (inject_Z n)) else Raise OverflowError.

(** [float(text)] of a decimal literal with value [q]. *)
Definition float_of_literal (q : Q) : pyfloat :=
  if Qle_bool (inject_Z DBL_OVERFLOW) (Qabs q) then FInf (Qle_bool q 0) else FFin q.

Definition fadd (a b : pyfloat) : pyfloat :=
  match a, b with
  | FNan, _ | _, FNan => FNan
  | FInf s, FInf s' => if Bool.eqb s s' then FInf s else FNan
  | FInf s, FFin _ | FFin _, FInf s => FInf s
  | FFin x, FFin y => FFin (x + y)
  end.

Definition Qlt_bool (x y : Q) : bool := negb (Qle_bool y x).

(** [a < b] on floats: every comparison with NaN is false. *)
Definition fltb (a b : pyfloat) : bool :=
  match a, b with
  | FNan, _ | _, FNan => false
  | FInf true, FInf true => false
  | FInf true, _ => true
  | _, FInf true => false
  | FInf false, _ => false
  | FFin _, FInf false => true
  | FFin x, FFin y => Qlt_bool x y
  end.

(** ** Python values, as far as [json.loads] produces them *)

#[warnings="-register-all"]
Inductive pyval : Type :=
| PNone
| PBool (b : bool)
| PInt (n : Z)
| PFloat (f : pyfloat)
| PStr (s : string)
| PList (l : list pyval)
| PDict (d : list (string * pyval)).

Definition dict : Type := list (string * pyval).

Fixpoint dict_lookup (d : dict) (k : string) : option pyval :=
  match d with
  | [] => None
  | (k', v) :: d' => if String.eqb k' k then Some v else dict_lookup d' k
  end.

(** [d[k] = v]: an existing key keeps its place and takes the new value. *)
Fixpoint dict_set (d : dict) (k : string) (v : pyval) : dict :=
  match d with
  | [] => [(k, v)]
  | (k', v') :: d' =>
      if String.eqb k' k then (k', v) :: d' else (k', v') :: dict_set d' k v
  end.

(** [obj.get(k, default)]: only a dict has the method. *)
Definition py_get (obj : pyval) (k : string) (default : pyval) : result pyval :=
  match obj with
  | PDict d => Ok (match dict_lookup d k with Some v => v | None => default end)
  | _ => Raise AttributeError
  end.

(** [x + v] for a float [x]: [float.__add__] takes a float, an int or a bool
    (a subclass of int); for anything else both [__add__] and the reflected
    [__radd__] decline and the interpreter raises [TypeError]. *)
Definition py_float_add (x : pyfloat) (v : pyval) : result pyfloat :=
  match v with
  | PFloat y => Ok (fadd x y)
  | PInt n =>
      match float_of_int n with
      | Ok y => Ok (fadd x y)
      | Raise e => Raise e
      end
  | PBool b => Ok (fadd x (FFin (inject_Z (if b then 1 else 0))))
  | PNone | PStr _ | PList _ | PDict _ => Raise TypeError
  end.

(** ** [json.loads] *)

Module Json.

Definition dquote : ascii := "034"%char.
Definition backslash : ascii := "092"%char.

Definition code (c : ascii) : Z := Z.of_N (N_of_ascii c).
Definition chr (z : Z) : ascii := ascii_of_N (Z.to_N z).

Definition is_ws (c : ascii) : bool :=
  Ascii.eqb c " " || Ascii.eqb c "009" || Ascii.eqb c "010" || Ascii.eqb c "013".

Definition is_digit (c : ascii) : bool := (48 <=? code c) && (code c <=? 57).

Fixpoint skip_ws (s : string) : string :=
  match s with
  | String c r => if is_ws c then skip_ws r else s
  | EmptyString => s
  end.

(** [strip_prefix p s] is the rest of [s] after the prefix [p]. *)
Fixpoint strip_prefix (p s : string) : option string :=
  match p, s with
  | EmptyString, _ => Some s
  | String a p', String b s' => if Ascii.eqb a b then strip_prefix p' s' else None
  | String _ _, EmptyString => None
  end.

(** The longest run of decimal digits at the head of [s], and the rest. *)
Fixpoint span_digits (s : string) : string * string :=
  match s with
  | String c r =>
      if is_digit c then let (ds, rest) := span_digits r in (String c ds, rest)
      else (EmptyString, s)
  | EmptyString => (EmptyString, EmptyString)
  end.

Fixpoint Z_of_digits_acc (acc : Z) (ds : string) : Z :=
  match ds with
  | String c r => Z_of_digits_acc (10 * acc + (code c - 48)) r
  | EmptyString => acc
  end.
Definition Z_of_digits (ds : string) : Z := Z_of_digits_acc 0 ds.

Definition hex_digit (c : ascii) : option Z :=
  let n := code c in
  if (48 <=? n) && (n <=? 57) then Some (n - 48)
  else if (65 <=? n) && (n <=? 70) then Some (n - 55)
  else if (97 <=? n) && (n <=? 102) then Some (n - 87)
  else None.

(** The four hex digits of a [\uXXXX] escape. *)
Definition decode_uXXXX (s : string) : option (Z * string) :=
  match s with
  | String a (String b (String c (String d r))) =>
      match hex_digit a, hex_digit b, hex_digit c, hex_digit d with
      | Some x3, Some x2, Some x1, Some x0 =>
          Some (4096 * x3 + 256 * x2 + 16 * x1 + x0, r)
      | _, _, _, _ => None
      end
  | _ => None
  end.

(** The UTF-8 bytes of one code point (surrogates included, on three bytes). *)
Definition utf8 (u : Z) : string :=
  if u <? 128 then String (chr u) EmptyString
  else if u <? 2048 then
    String (chr (192 + u / 64)) (String (chr (128 + u mod 64)) EmptyString)
  else if u <? 65536 then
    String (chr (224 + u / 4096))
      (String (chr (128 + (u / 64) mod 64)) (String (chr (128 + u mod 64)) EmptyString))
  else
    String (chr (240 + u / 262144))
      (String (chr (128 + (u / 4096) mod 64))
         (String (chr (128 + (u / 64) mod 64)) (String (chr (128 + u mod 64)) EmptyString))).

Definition simple_escape (c : ascii) : option ascii :=
  if Ascii.eqb c dquote then Some dquote
  else if Ascii.eqb c backslash then Some backslash
  else if Ascii.eqb c "/" then Some "/"%char
  else if Ascii.eqb c "b" then Some "008"%char
  else if Ascii.eqb c "f" then Some "012"%char
  else if Ascii.eqb c "n" then Some "010"%char
  else if Ascii.eqb c "r" then Some "013"%char
  else if Ascii.eqb c "t" then Some "009"%char
  else None.

(** [scanstring]: the text after an opening quote, up to the closing one.
    Control characters are refused (strict mode); a high surrogate escape
    directly followed by a low surrogate escape is one code point. *)
Fixpoint scanstring_fuel (fuel : nat) (s : string) : option (string * string) :=
  match fuel with
  | O => None
  | S fuel' =>
    match s with
    | EmptyString => None
    | String c r =>
      if Ascii.eqb c dquote then Some (EmptyString, r)
      else if code c <? 32 then None
      else if Ascii.eqb c backslash then
        match r with
        | EmptyString => None
        | String e r1 =>
          if Ascii.eqb e "u" then
            match decode_uXXXX r1 with
            | None => None
            | Some (uni, r2) =>
              let pair :=
                if (55296 <=? uni) && (uni <=? 56319) then
                  match strip_prefix (String backslash "u") r2 with
                  | Some r3 =>
                    match decode_uXXXX r3 with
                    | None => None
                    | Some (uni2, r4) =>
                      if (56320 <=? uni2) && (uni2 <=? 57343)
                      then Some (65536 + ((uni - 55296) * 1024 + (uni2 - 56320)), r4)
                      else Some (uni, r2)
                    end
                  | None => Some (uni, r2)
                  end
                else Some (uni, r2) in
              match pair with
              | None => None
              | Some (u, r5) =>
                match scanstring_fuel fuel' r5 with
                | Some (txt, rest) => Some (utf8 u +++ txt, rest)
                | None => None
                end
              end
            end
          else
            match simple_escape e with
            | None => None
            | Some ch =>
              match scanstring_fuel fuel' r1 with
              | Some (txt, rest) => Some (String ch txt, rest)
              | None => None
              end
            end
        end
      else
        match scanstring_fuel fuel' r with
        | Some (txt, rest) => Some (String c txt, rest)
        | None => None
        end
    end
  end.

Definition scanstring (s : string) : option (string * string) :=
  scanstring_fuel (S (String.length s)) s.

(** [NUMBER_RE]: an optional minus sign and an integer part (a single zero,
    or digits not starting with zero); then, optionally, a point and at least
    one digit; then, optionally, [e] or [E], an optional sign and at least one
    digit.  A literal with a fraction or an exponent is a float, otherwise an
    int. *)
Definition scan_sign (s : string) : bool * string :=
  match s with
  | String c r => if Ascii.eqb c "-" then (true, r) else (false, s)
  | EmptyString => (false, s)
  end.

Definition scan_integer (s : string) : option (string * string) :=
  match s with
  | String c r =>
      if Ascii.eqb c "0" then Some ("0", r)
      else if is_digit c then Some (span_digits s)
      else None
  | EmptyString => None
  end.

Definition scan_frac (s : string) : option (string * string) :=
  match s with
  | String c r =>
      if Ascii.eqb c "." then
        match span_digits r with
        | (EmptyString, _) => None
        | (ds, rest) => Some (ds, rest)
        end
      else None
  | EmptyString => None
  end.

Definition scan_exp (s : string) : option (Z * string) :=
  match s with
  | String c r =>
      if Ascii.eqb c "e" || Ascii.eqb c "E" then
        let '(neg, r1) :=
          match r with
          | String g r' =>
              if Ascii.eqb g "-" then (true, r')
              else if Ascii.eqb g "+" then (false, r')
              else (false, r)
          | EmptyString => (false, r)
          end in
        match span_digits r1 with
        | (EmptyString, _) => None
        | (ds, rest) => Some (if neg then - Z_of_digits ds else Z_of_digits ds, rest)
        end
      else None
  | EmptyString => None
  end.

(** The rational [m * 10^e]. *)
Definition decimal (m e : Z) : Q :=
  if 0 <=? e then inject_Z (m * 10 ^ e)
  else Qmake m (Z.to_pos (10 ^ (- e))).

Definition scan_number (s : string) : option (pyval * string) :=
  let (neg, s1) := scan_sign s in
  match scan_integer s1 with
  | None => None
  | Some (ids, s2) =>
    let (fds, s3) :=
      match scan_frac s2 with
      | Some (fds, s3) => (Some fds, s3)
      | None => (None, s2)
      end in
    let (ex, s4) :=
      match scan_exp s3 with
      | Some (e, s4) => (Some e, s4)
      | None => (None, s3)
      end in
    match fds, ex with
    | None, None =>
        let n := Z_of_digits ids in
        Some (PInt (if neg then - n else n), s4)
    | _, _ =>
        let fd := match fds with Some d => d | None => EmptyString end in
        let e := match ex with Some e => e | None => 0 end in
        let m := Z_of_digits (ids +++ fd) in
        let q := decimal (if neg then - m else m) (e - Z.of_nat (String.length fd)) in
        Some (PFloat (float_of_literal q), s4)
    end
  end.

Definition scan_constant (s : string) : option (pyval * string) :=
  match strip_prefix "NaN" s with
  | Some r => Some (PFloat FNan, r)
  | None =>
    match strip_prefix "Infinity" s with
    | Some r => Some (PFloat (FInf false), r)
    | None =>
      match strip_prefix "-Infinity" s with
      | Some r => Some (PFloat (FInf true), r)
      | None => None
      end
    end
  end.

Definition scan_atom (s : string) : option (pyval * string) :=
  match strip_prefix "null" s with
  | Some r => Some (PNone, r)
  | None =>
    match strip_prefix "true" s with
    | Some r => Some (PBool true, r)
    | None =>
      match strip_prefix "false" s with
      | Some r => Some (PBool false, r)
      | None =>
        match scan_number s with
        | Some res => Some res
        | None => scan_constant s
        end
      end
    end
  end.

(** [scan_once], with [JSONObject] and [JSONArray] as its two loops.  [None]
    is the decoder's [JSONDecodeError]. *)
Fixpoint scan_once (fuel : nat) (s : string) : option (pyval * string) :=
  match fuel with
  | O => None
  | S fuel' =>
    match s with
    | EmptyString => None
    | String c r =>
      if Ascii.eqb c dquote then
        match scanstring r with
        | Some (txt, rest) => Some (PStr txt, rest)
        | None => None
        end
      else if Ascii.eqb c "{" then
        match skip_ws r with
        | String c1 r1 =>
            if Ascii.eqb c1 "}" then Some (PDict [], r1)
            else object_members fuel' [] (String c1 r1)
        | EmptyString => None
        end
      else if Ascii.eqb c "[" then
        match skip_ws r with
        | String c1 r1 =>
            if Ascii.eqb c1 "]" then Some (PList [], r1)
            else array_items fuel' [] (String c1 r1)
        | EmptyString => None
        end
      else scan_atom s
    end
  end
with object_members (fuel : nat) (acc : dict) (s : string) : option (pyval * string) :=
  match fuel with
  | O => None
  | S fuel' =>
    match s with
    | EmptyString => None
    | String c r =>
      if Ascii.eqb c dquote then
        match scanstring r with
        | None => None
        | Some (key, r1) =>
          match skip_ws r1 with
          | EmptyString => None
          | String c2 r2 =>
            if Ascii.eqb c2 ":" then
              match scan_once fuel' (skip_ws r2) with
              | None => None
              | Some (v, r3) =>
                match skip_ws r3 with
                | EmptyString => None
                | String c4 r4 =>
                  if Ascii.eqb c4 "}" then Some (PDict (dict_set acc key v), r4)
                  else if Ascii.eqb c4 ","
                  then object_members fuel' (dict_set acc key v) (skip_ws r4)
                  else None
                end
              end
            else None
          end
        end
      else None
    end
  end
with array_items (fuel : nat) (acc : list pyval) (s : string) : option (pyval * string) :=
  match fuel with
  | O => None
  | S fuel' =>
    match scan_once fuel' s with
    | None => None
    | Some (v, r1) =>
      match skip_ws r1 with
      | EmptyString => None
      | String c2 r2 =>
        if Ascii.eqb c2 "]" then Some (PList (acc ++ [v]), r2)
        else if Ascii.eqb c2 "," then array_items fuel' (acc ++ [v]) (skip_ws r2)
        else None
      end
    end
  end.

(** [json.loads(s)]: one value between optional white space, nothing after. *)
Definition loads (s : string) : result pyval :=
  match scan_once (2 * S (String.length s)) (skip_ws s) with
  | Some (v, rest) =>
      match skip_ws rest with
      | EmptyString => Ok v
      | String _ _ => Raise JSONDecodeError
      end
  | None => Raise JSONDecodeError
  end.

End Json.

(** ** Bytes and [struct.pack("!I", n)] *)

Definition byte_of_Z (z : Z) : byte :=
  match Byte.of_N (Z.to_N (Z.land z 255)) with
  | Some b => b
  | None => x00
  end.

Definition Z_of_byte (b : byte) : Z := Z.of_N (Byte.to_N b).

(** The low 32 bits of [n] on four bytes, most significant first. *)
Definition be32 (n : Z) : list byte :=
  [byte_of_Z (Z.shiftr n 24); byte_of_Z (Z.shiftr n 16); byte_of_Z (Z.shiftr n 8);
   byte_of_Z n].

(** [struct.pack("!I", n)]: [struct.error] outside [0, 2^32). *)
Definition struct_pack_I (n : Z) : result (list byte) :=
  if (0 <=? n) && (n <? 2 ^ 32) then Ok (be32 n) else Raise StructError.

(** ** Images, bitmaps and fonts (the part of PIL the program uses) *)

Definition pixel : Type := (Z * Z * Z)%type.

(** An image in memory: its mode, its size and its pixels, row by row. *)
Record Image : Type := mkImage {
  im_mode : string;
  im_width : Z;
  im_height : Z;
  im_data : list pixel
}.

(** [Image.new(mode, (w, h))]: the colour defaults to 0, black. *)
Definition Image_new (mode : string) (size : Z * Z) : Image :=
  let (w, h) := size in
  mkImage mode w h (repeat (0, 0, 0) (Z.to_nat (w * h))).

Definition getpixel (img : Image) (x y : Z) : pixel :=
  nth (Z.to_nat (y * im_width img + x)) (im_data img) (0, 0, 0).

(** A glyph mask: 8-bit coverage at each position of a [bm_width] by
    [bm_height] box. *)
Record Bitmap : Type := mkBitmap {
  bm_width : Z;
  bm_height : Z;
  bm_at : Z -> Z -> Z
}.

(** A font resource: what the program asks of it. [getsize] measures a text,
    [getmask2] rasterises it and gives the offset of the mask from the text
    origin. *)
Record Font : Type := mkFont {
  getsize : string -> Z * Z;
  getmask2 : string -> Bitmap * (Z * Z)
}.

(** PIL's [DIV255] and [BLEND] on 8-bit channels. *)
Definition DIV255 (a : Z) : Z :=
  let tmp := a + 128 in Z.shiftr (Z.shiftr tmp 8 + tmp) 8.

Definition BLEND (mask in1 in2 : Z) : Z := DIV255 (in1 * (255 - mask) + in2 * mask).

Definition blend_pixel (mask : Z) (p ink : pixel) : pixel :=
  let '(r, g, b) := p in
  let '(ir, ig, ib) := ink in
  (BLEND mask r ir, BLEND mask g ig, BLEND mask b ib).

(** Coverage of the mask placed at [(x0, y0)] over the canvas pixel [(x, y)];
    [None] outside the box of the mask. *)
Definition mask_at (bm : Bitmap) (x0 y0 x y : Z) : option Z :=
  let sx := x - x0 in
  let sy := y - y0 in
  if (0 <=? sx) && (sx <? bm_width bm) && (0 <=? sy) && (sy <? bm_height bm)
  then Some (Z.land (bm_at bm sx sy) 255)
  else None.

Fixpoint paint (f : Z -> pixel -> pixel) (i : Z) (data : list pixel) : list pixel :=
  match data with
  | [] => []
  | p :: rest => f i p :: paint f (i + 1) rest
  end.

(** [draw_bitmap(coord, mask, ink)]: the part of the mask that falls on the
    image is blended into it, the rest is dropped. *)
Definition draw_bitmap (img : Image) (coord : Z * Z) (bm : Bitmap) (ink : pixel) : Image :=
  let (x0, y0) := coord in
  let w := im_width img in
  mkImage (im_mode img) w (im_height img)
    (paint (fun i p =>
              match mask_at bm x0 y0 (i mod w) (i / w) with
              | Some m => blend_pixel m p ink
              | None => p
              end) 0 (im_data img)).

(** [ImageDraw.Draw(img).textsize(s, font=font)] *)
Definition textsize (s : string) (font : Font) : Z * Z := getsize font s.

(** [ImageDraw.Draw(img).text(xy, s, fill=fill, font=font)] *)
Definition draw_text (img : Image) (xy : Z * Z) (s : string) (fill : pixel) (font : Font)
  : Image :=
  let (bm, offset) := getmask2 font s in
  draw_bitmap img (fst xy + fst offset, snd xy + snd offset) bm fill.

(** ** [time.strftime("%H:%M:%S")] *)

Definition two_digits (n : Z) : string :=
  String (Json.chr (48 + n / 10)) (String (Json.chr (48 + n mod 10)) EmptyString).

(** The local time of day at [secs] seconds since the epoch, in a zone
    [utcoffset] seconds east of UTC. *)
Definition format_HMS (utcoffset secs : Z) : string :=
  let local := secs + utcoffset in
  two_digits ((local mod 86400) / 3600) +++ ":" +++
  two_digits ((local mod 3600) / 60) +++ ":" +++
  two_digits (local mod 60).

(** ** The environment and the state *)

Inductive event : Type :=
| EvWrite (data : list byte)   (* sys.stdout.buffer.write(data) *)
| EvFlush                      (* sys.stdout.flush() *)
| EvSleep (seconds : Q).       (* time.sleep(seconds) *)

Record Env : Type := mkEnv {
  env_stdin : string;                          (* sys.stdin.read() *)
  env_clock : nat -> Q;                        (* the n-th reading of the wall clock *)
  env_utcoffset : Z -> Z;                      (* local zone at an epoch second *)
  env_truetype : string -> Z -> result Font;   (* ImageFont.truetype(path, size) *)
  env_load_default : Font;                     (* ImageFont.load_default() *)
  env_png : Image -> list byte                 (* img.save(b, "PNG"); b.getvalue() *)
}.

Record State : Type := mkState {
  st_reads : nat;            (* clock readings taken so far *)
  st_trace : list event      (* what the process did, oldest first *)
}.

Definition initial : State := mkState 0 [].

Inductive outcome (A : Type) : Type :=
| Return (a : A)
| Throw (e : exn)
| OutOfFuel.
Arguments Return {A} a.
Arguments Throw {A} e.
Arguments OutOfFuel {A}.

Definition M (A : Type) : Type := State -> outcome A * State.

Definition ret {A} (a : A) : M A := fun st => (Return a, st).

Definition bind {A B} (m : M A) (k : A -> M B) : M B :=
  fun st =>
    match m st with
    | (Return a, st') => k a st'
    | (Throw e, st') => (Throw e, st')
    | (OutOfFuel, st') => (OutOfFuel, st')
    end.

Definition lift {A} (r : result A) : M A :=
  fun st => match r with Ok a => (Return a, st) | Raise e => (Throw e, st) end.

(** [try: body except: handler] with a bare [except], which catches every
    exception. *)
Definition try_except {A} (body handler : M A) : M A :=
  fun st =>
    match body st with
    | (Throw _, st') => handler st'
    | other => other
    end.

Declare Scope py_scope.
Delimit Scope py_scope with py.
Notation "x <- c1 ;; c2" := (bind c1 (fun x => c2))
  (at level 61, c1 at next level, right associativity) : py_scope.
Notation "c1 ;; c2" := (bind c1 (fun _ => c2))
  (at level 61, right associativity) : py_scope.
Local Open Scope py_scope.

Definition emit (ev : event) : M unit :=
  fun st => (Return tt, mkState (st_reads st) (st_trace st ++ [ev])).

Definition W : Z := 128.
Definition H : Z := 64.

Section Program.

Variable env : Env.

Definition sys_stdin_read : M string := ret (env_stdin env).

Definition time_time : M Q :=
  fun st => (Return (env_clock env (st_reads st)), mkState (S (st_reads st)) (st_trace st)).

Definition time_sleep (seconds : Q) : M unit := emit (EvSleep seconds).

(** [time.strftime("%H:%M:%S")]: with no time tuple it formats
    [localtime()], a reading of the clock cut to whole seconds. *)
Definition time_strftime_HMS : M string :=
  t <- time_time ;;
  let secs := Qfloor t in
  ret (format_HMS (env_utcoffset env secs) secs).

Definition stdout_write (data : list byte) : M unit := emit (EvWrite data).
Definition stdout_flush : M unit := emit EvFlush.

(** [send(img)] *)
Definition send (img : Image) : M unit :=
  let blob := env_png env img in
  hdr <- lift (struct_pack_I (Z.of_nat (List.length blob))) ;;
  stdout_write hdr ;;
  stdout_write blob ;;
  stdout_flush.

(** The text origin computed by the loop body from the measured size. *)
Definition text_origin (tw th : Z) : Z * Z := ((W - tw) / 2, (H - th) / 2).

(** The canvas of one tick, for the text [s]. *)
Definition render (font : Font) (s : string) : Image :=
  let img := Image_new "RGB" (W, H) in
  let (tw, th) := textsize s font in
  draw_text img (text_origin tw th) s (255, 255, 255) font.

(** The first half of the loop body: the canvas for the time read now. *)
Definition render_tick (font : Font) : M Image :=
  s <- time_strftime_HMS ;;
  ret (render font s).

(** The body of the [while] loop. *)
Definition tick (font : Font) : M unit :=
  img <- render_tick font ;;
  send img ;;
  time_sleep (1 # 4).

(** [while time.time() < end: ...] *)
Fixpoint loop (fuel : nat) (deadline : pyfloat) (font : Font) : M unit :=
  match fuel with
  | O => fun st => (OutOfFuel, st)
  | S fuel' =>
      now <- time_time ;;
      if fltb (FFin now) deadline
      then tick font ;; loop fuel' deadline font
      else ret tt
  end.

Definition FreeSans : string := "/usr/share/fonts/truetype/freefont/FreeSans.ttf".

(** The [try] / [except] around the font. *)
Definition load_font : M Font :=
  try_except (lift (env_truetype env FreeSans 28)) (ret (env_load_default env)).

(** [json.loads(sys.stdin.read() or "{}")], as a function of the input. *)
Definition config : result pyval :=
  Json.loads (if String.eqb (env_stdin env) "" then "{}" else env_stdin env).

Definition read_params : M pyval :=
  s <- sys_stdin_read ;;
  lift (Json.loads (if String.eqb s "" then "{}" else s)).

(** [params.get("duration_sec", 10)] *)
Definition duration_sec (params : pyval) : result pyval :=
  py_get params "duration_sec" (PInt 10).

(** [end = time.time() + params.get("duration_sec", 10)]: the clock is read
    before the lookup. *)
Definition compute_deadline (params : pyval) : M pyfloat :=
  now <- time_time ;;
  d <- lift (duration_sec params) ;;
  lift (py_float_add (FFin now) d).

Definition main (fuel : nat) : M unit :=
  params <- read_params ;;
  deadline <- compute_deadline params ;;
  font <- load_font ;;
  loop fuel deadline font.

End Program.

(** ** Observations on a run *)

(** The bytes handed to standard output, in order. *)
Fixpoint written (tr : list event) : list byte :=
  match tr with
  | [] => []
  | EvWrite data :: rest => data ++ written rest
  | _ :: rest => written rest
  end.

(** The bytes handed to standard output before the last flush. *)
Fixpoint flushed_acc (pending : list byte) (tr : list event) : list byte :=
  match tr with
  | [] => []
  | EvWrite data :: rest => flushed_acc (pending ++ data) rest
  | EvFlush :: rest => pending ++ flushed_acc [] rest
  | EvSleep _ :: rest => flushed_acc pending rest
  end.
Definition flushed (tr : list event) : list byte := flushed_acc [] tr.

(** What one complete pass of the loop body leaves in the trace. *)
Definition frame_events (env : Env) (img : Image) : list event :=
  let blob := env_png env img in
  [EvWrite (be32 (Z.of_nat (List.length blob))); EvWrite blob; EvFlush; EvSleep (1 # 4)].

(** What the frames of a run are: canvases of the loop body whose encoding
    fits the header. *)
Definition emitted_by (env : Env) (font : Font) (img : Image) : Prop :=
  (exists s, img = render font s) /\ Z.of_nat (List.length (env_png env img)) < 2 ^ 32.

(** The consumer of the stream: four bytes read as a big-endian unsigned
    length [N], then exactly [N] bytes. *)
Definition unpack_I (hdr : list byte) : option Z :=
  match hdr with
  | [b3; b2; b1; b0] =>
      Some (((Z_of_byte b3 * 256 + Z_of_byte b2) * 256 + Z_of_byte b1) * 256 + Z_of_byte b0)
  | _ => None
  end.

Definition read_frame (stream : list byte) : option (list byte * list byte) :=
  match unpack_I (firstn 4 stream) with
  | Some n =>
      let body := skipn 4 stream in
      if Z.of_nat (List.length body) <? n then None
      else Some (firstn (Z.to_nat n) body, skipn (Z.to_nat n) body)
  | None => None
  end.

Fixpoint read_frames (fuel : nat) (stream : list byte) : option (list (list byte)) :=
  match stream with
  | [] => Some []
  | _ :: _ =>
      match fuel with
      | O => None
      | S fuel' =>
          match read_frame stream with
          | Some (blob, rest) =>
              match read_frames fuel' rest with
              | Some blobs => Some (blob :: blobs)
              | None => None
              end
          | None => None
          end
      end
  end.

(** A canvas as the loop body makes them: RGB, 128 by 64, 8-bit channels. *)
Definition channel_ok (c : Z) : Prop := 0 <= c <= 255.
Definition pixel_ok (p : pixel) : Prop :=
  let '(r, g, b) := p in channel_ok r /\ channel_ok g /\ channel_ok b.
Definition canvas_ok (img : Image) : Prop :=
  im_mode img = "RGB" /\ im_width img = 128 /\ im_height img = 64 /\
  Z.of_nat (List.length (im_data img)) = 8192 /\ Forall pixel_ok (im_data img).

(** Coverage of the glyphs of [s] over the canvas pixel [(x, y)] when the
    loop body draws [s] with [font]; 0 where the mask does not reach. *)
Definition coverage (font : Font) (s : string) (x y : Z) : Z :=
  let (tw, th) := getsize font s in
  let (bm, offset) := getmask2 font s in
  let (ox, oy) := text_origin tw th in
  match mask_at bm (ox + fst offset) (oy + snd offset) x y with
  | Some m => m
  | None => 0
  end.

(** Reading back a text of the form [HH:MM:SS]: two decimal digits, a colon,
    two digits, a colon, two digits, and nothing else. *)
Definition digit_val (c : ascii) : option Z :=
  if Json.is_digit c then Some (Json.code c - 48) else None.

Definition parse_HMS (s : string) : option (Z * Z * Z) :=
  match s with
  | String h1 (String h0 (String c1 (String m1 (String m0
      (String c2 (String s1 (String s0 EmptyString))))))) =>
      match digit_val h1, digit_val h0, digit_val m1, digit_val m0,
            digit_val s1, digit_val s0 with
      | Some a, Some b, Some c, Some d, Some e, Some f =>
          if Ascii.eqb c1 ":" && Ascii.eqb c2 ":"
          then Some (10 * a + b, 10 * c + d, 10 * e + f)
          else None
      | _, _, _, _, _, _ => None
      end
  | _ => None
  end.

(** Classes of configuration values the properties speak about. *)
Definition is_zero (v : pyval) : bool :=
  match v with
  | PInt n => n =? 0
  | PFloat (FFin x) => Qeq_bool x 0
  | _ => false
  end.

Definition is_negative (v : pyval) : bool :=
  match v with
  | PInt n => n <? 0
  | PFloat (FFin x) => Qlt_bool x 0
  | PFloat (FInf negative) => negative
  | _ => false
  end.

(** An int fits when [float.__add__] can convert it; a float always does. *)
Definition fits_double (v : pyval) : bool :=
  match v with
  | PInt n => Z.abs n <? DBL_OVERFLOW
  | _ => true
  end.

(** A JSON number: what [json.loads] reads from a number literal. *)
Definition is_json_number (v : pyval) : bool :=
  match v with
  | PInt _ | PFloat _ => true
  | _ => false
  end.

Definition is_object (v : pyval) : bool :=
  match v with
  | PDict _ => true
  | _ => false
  end.

(** The values a float refuses to be added to: null, strings, arrays and
    objects. *)
Definition not_addable (v : pyval) : bool :=
  match v with
  | PNone | PStr _ | PList _ | PDict _ => true
  | PBool _ | PInt _ | PFloat _ => false
  end.

(** The same environment with another standard input. *)
Definition with_stdin (env : Env) (s : string) : Env :=
  mkEnv s (env_clock env) (env_utcoffset env) (env_truetype env)
        (env_load_default env) (env_png env).

(** ** A run seen from the clock

    Started from [initial], [main] reads the clock once for the deadline;
    then each pass of the loop reads it twice: once for the test, once for
    the text.  A loop whose next test is reading [r] renders reading [r + 1]
    and tests reading [r + 2] next. *)

(** The font the loop runs with. *)
Definition chosen_font (env : Env) : Font :=
  match env_truetype env FreeSans 28 with
  | Ok preferred => preferred
  | Raise _ => env_load_default env
  end.

(** The canvas drawn from clock reading [r]. *)
Definition shown (env : Env) (font : Font) (r : nat) : Image :=
  render font (format_HMS (env_utcoffset env (Qfloor (env_clock env r)))
                          (Qfloor (env_clock env r))).

(** The canvases of [n] passes of a loop whose next test is reading [r]. *)
Fixpoint frames_from (env : Env) (font : Font) (r n : nat) : list Image :=
  match n with
  | O => []
  | S n' => shown env font (S r) :: frames_from env font (S (S r)) n'
  end.

(** The encoder never produces 4 GiB or more for a canvas. *)
Definition encodings_fit (env : Env) : Prop :=
  forall img, canvas_ok img -> Z.of_nat (List.length (env_png env img)) < 2 ^ 32.

(** A text made of JSON white space only. *)
Fixpoint all_ws (s : string) : bool :=
  match s with
  | EmptyString => true
  | String c r => Json.is_ws c && all_ws r
  end.

(** ** A small concrete environment

    A fixed-pitch test font (each character is a 6 by 10 block in an 8 by 10
    cell), a clock that advances a quarter of a second per reading from
    1000 s, a zone one hour east of UTC, no FreeSans file, and an encoder that
    stores the raw channels.  Used to run the program on concrete inputs. *)

Definition demo_font : Font :=
  mkFont (fun s => (8 * Z.of_nat (String.length s), 10))
         (fun s => (mkBitmap (8 * Z.of_nat (String.length s)) 10
                      (fun x _ => if x mod 8 <? 6 then 255 else 0), (0, 0))).

Definition raw_encode (img : Image) : list byte :=
  flat_map (fun p : pixel => let '(r, g, b) := p in [byte_of_Z r; byte_of_Z g; byte_of_Z b])
           (im_data img).

Fixpoint group3 (bs : list byte) : list pixel :=
  match bs with
  | r :: g :: b :: rest => (Z_of_byte r, Z_of_byte g, Z_of_byte b) :: group3 rest
  | _ => []
  end.

Definition raw_decode (bs : list byte) : option Image :=
  if Z.of_nat (List.length bs) =? 24576 then Some (mkImage "RGB" 128 64 (group3 bs))
  else None.

Definition demo_clock (n : nat) : Q := (1000 + inject_Z (Z.of_nat n) * (1 # 4))%Q.

Definition demo_env (input : string) : Env :=
  mkEnv input demo_clock (fun _ => 3600) (fun _ _ => Raise OSError) demo_font raw_encode.

(** The JSON object with the one key [duration_sec] and the JSON text [v]
    as its value. *)
Fixpoint zeros (n : nat) : string :=
  match n with
  | O => EmptyString
  | S n' => String "0" (zeros n')
  end.

Definition duration_config (v : string) : string :=
  "{" +++ String Json.dquote ("duration_sec" +++ String Json.dquote (": " +++ v +++ "}")).

(** * Properties *)

(** ** The decoder

    The decoder recurses on fuel.  Every step consumes input, so the fuel
    [loads] hands out is never what makes it fail: with any larger fuel it
    reads the same value or fails the same way. *)

Module JsonFacts.
Import Json.
Local Open Scope nat_scope.

Lemma skip_ws_length s : String.length (skip_ws s) <= String.length s.
Proof.
  induction s as [|c r IH]; cbn; [lia|]. destruct (is_ws c); cbn; lia.
Qed.

Lemma strip_prefix_length p : forall s r,
  strip_prefix p s = Some r -> String.length s = String.length p + String.length r.
Proof.
  induction p as [|a p IH]; intros s r; cbn.
  - now intros [= ->].
  - destruct s as [|b s]; [discriminate|]. destruct (Ascii.eqb a b); [|discriminate].
    intros Hs. apply IH in Hs. cbn. lia.
Qed.

Lemma span_digits_length s :
  String.length s = String.length (fst (span_digits s)) + String.length (snd (span_digits s)).
Proof.
  induction s as [|c r IH]; cbn; [reflexivity|].
  destruct (is_digit c); [|reflexivity].
  destruct (span_digits r) as [ds rest]. cbn in *. lia.
Qed.

Lemma decode_uXXXX_length s u r :
  decode_uXXXX s = Some (u, r) -> String.length s = 4 + String.length r.
Proof.
  unfold decode_uXXXX.
  destruct s as [|a [|b [|c [|d s]]]]; try discriminate.
  destruct (hex_digit a), (hex_digit b), (hex_digit c), (hex_digit d); try discriminate.
  now intros [= _ ->].
Qed.

Lemma scanstring_fuel_length : forall fuel s txt rest,
  scanstring_fuel fuel s = Some (txt, rest) -> String.length rest < String.length s.
Proof.
  induction fuel as [|fuel IH]; intros s txt rest; [discriminate|].
  cbn [scanstring_fuel]. destruct s as [|c r]; [discriminate|].
  destruct (Ascii.eqb c dquote). { intros [= _ ->]. cbn. lia. }
  destruct (code c <? 32)%Z; [discriminate|].
  destruct (Ascii.eqb c backslash).
  - destruct r as [|e r1]; [discriminate|].
    destruct (Ascii.eqb e "u").
    + destruct (decode_uXXXX r1) as [[uni r2]|] eqn:E1; [|discriminate].
      apply decode_uXXXX_length in E1.
      match goal with |- context [match ?p with Some _ => _ | None => _ end = _] =>
        destruct p as [[u r5]|] eqn:Ep end; [|discriminate].
      assert (Hr5 : String.length r5 <= String.length r2).
      { destruct ((55296 <=? uni)%Z && (uni <=? 56319)%Z).
        - destruct (strip_prefix _ r2) as [r3|] eqn:E3.
          + apply strip_prefix_length in E3.
            destruct (decode_uXXXX r3) as [[uni2 r4]|] eqn:E4; [|discriminate].
            apply decode_uXXXX_length in E4.
            destruct ((56320 <=? uni2)%Z && (uni2 <=? 57343)%Z); injection Ep as _ <-; lia.
          + injection Ep as _ <-; lia.
        - injection Ep as _ <-; lia. }
      destruct (scanstring_fuel fuel r5) as [[t' rest']|] eqn:E5; [|discriminate].
      apply IH in E5. intros [= _ <-]. cbn. lia.
    + destruct (simple_escape e); [|discriminate].
      destruct (scanstring_fuel fuel r1) as [[t' rest']|] eqn:E5; [|discriminate].
      apply IH in E5. intros [= _ <-]. cbn. lia.
  - destruct (scanstring_fuel fuel r) as [[t' rest']|] eqn:E5; [|discriminate].
    apply IH in E5. intros [= _ <-]. cbn. lia.
Qed.

Lemma scanstring_fuel_enough : forall fuel fuel' s,
  String.length s < fuel -> String.length s < fuel' ->
  scanstring_fuel fuel s = scanstring_fuel fuel' s.
Proof.
  induction fuel as [|fuel IH]; intros fuel' s Hf Hf'; [lia|].
  destruct fuel' as [|fuel']; [lia|].
  cbn [scanstring_fuel]. destruct s as [|c r]; [reflexivity|]. cbn in Hf, Hf'.
  destruct (Ascii.eqb c dquote); [reflexivity|].
  destruct (code c <? 32)%Z; [reflexivity|].
  destruct (Ascii.eqb c backslash).
  - destruct r as [|e r1]; [reflexivity|]. cbn in Hf, Hf'.
    destruct (Ascii.eqb e "u").
    + destruct (decode_uXXXX r1) as [[uni r2]|] eqn:E1; [|reflexivity].
      apply decode_uXXXX_length in E1.
      match goal with |- context [match ?p with Some _ => _ | None => _ end = _] =>
        destruct p as [[u r5]|] eqn:Ep end; [|reflexivity].
      assert (Hr5 : String.length r5 <= String.length r2).
      { destruct ((55296 <=? uni)%Z && (uni <=? 56319)%Z).
        - destruct (strip_prefix _ r2) as [r3|] eqn:E3.
          + apply strip_prefix_length in E3.
            destruct (decode_uXXXX r3) as [[uni2 r4]|] eqn:E4; [|discriminate].
            apply decode_uXXXX_length in E4.
            destruct ((56320 <=? uni2)%Z && (uni2 <=? 57343)%Z); injection Ep as _ <-; lia.
          + injection Ep as _ <-; lia.
        - injection Ep as _ <-; lia. }
      rewrite (IH fuel' r5) by lia. reflexivity.
    + destruct (simple_escape e); [|reflexivity].
      rewrite (IH fuel' r1) by lia. reflexivity.
  - rewrite (IH fuel' r) by lia. reflexivity.
Qed.

Lemma scanstring_length s txt rest :
  scanstring s = Some (txt, rest) -> String.length rest < String.length s.
Proof. apply scanstring_fuel_length. Qed.

Lemma scan_integer_length s ds rest :
  scan_integer s = Some (ds, rest) -> String.length rest < String.length s.
Proof.
  unfold scan_integer. destruct s as [|c r]; [discriminate|].
  destruct (Ascii.eqb c "0"). { intros [= _ ->]. cbn. lia. }
  destruct (is_digit c) eqn:Ed; [|discriminate].
  intros [= Hs]. cbn [span_digits] in Hs. rewrite Ed in Hs.
  pose proof (span_digits_length r) as Hl.
  destruct (span_digits r) as [ds' rest']. injection Hs as <- <-.
  cbn in Hl |- *. lia.
Qed.

Lemma scan_frac_length s ds rest :
  scan_frac s = Some (ds, rest) -> String.length rest < String.length s.
Proof.
  unfold scan_frac. destruct s as [|c r]; [discriminate|].
  destruct (Ascii.eqb c "."); [|discriminate].
  pose proof (span_digits_length r) as Hl.
  destruct (span_digits r) as [[|d ds'] rest']; [discriminate|].
  intros [= _ <-]. cbn in Hl |- *. lia.
Qed.

Lemma scan_exp_length s e rest :
  scan_exp s = Some (e, rest) -> String.length rest < String.length s.
Proof.
  unfold scan_exp. destruct s as [|c r]; [discriminate|].
  destruct (Ascii.eqb c "e" || Ascii.eqb c "E"); [|discriminate].
  assert (Hsign : forall neg r1,
            match r with
            | String g r' =>
                if Ascii.eqb g "-" then (true, r')
                else if Ascii.eqb g "+" then (false, r') else (false, r)
            | EmptyString => (false, r)
            end = (neg, r1) -> String.length r1 <= String.length r).
  { intros neg r1. destruct r as [|g r']; [now intros [= _ <-]|].
    destruct (Ascii.eqb g "-"); [intros [= _ <-]; cbn; lia|].
    destruct (Ascii.eqb g "+"); intros [= _ <-]; cbn; lia. }
  destruct (match r with String g r' => _ | EmptyString => _ end) as [neg r1].
  specialize (Hsign neg r1 eq_refl).
  pose proof (span_digits_length r1) as Hl.
  destruct (span_digits r1) as [[|d ds'] rest']; [discriminate|].
  intros [= _ <-]. cbn in Hl |- *. lia.
Qed.

Lemma scan_number_length s v rest :
  scan_number s = Some (v, rest) -> String.length rest < String.length s.
Proof.
  unfold scan_number.
  assert (Hsign : String.length (snd (scan_sign s)) <= String.length s).
  { unfold scan_sign. destruct s as [|c r]; [cbn; lia|].
    destruct (Ascii.eqb c "-"); cbn; lia. }
  destruct (scan_sign s) as [neg s1]. cbn [snd] in Hsign.
  destruct (scan_integer s1) as [[ids s2]|] eqn:Ei; [|discriminate].
  apply scan_integer_length in Ei.
  assert (Hf : forall fds s3,
            match scan_frac s2 with
            | Some (fds, s3) => (Some fds, s3)
            | None => (None, s2)
            end = (fds, s3) -> String.length s3 <= String.length s2).
  { intros fds s3. destruct (scan_frac s2) as [[fd s3']|] eqn:Ef.
    - apply scan_frac_length in Ef. intros [= _ <-]. lia.
    - intros [= _ <-]. lia. }
  destruct (match scan_frac s2 with Some _ => _ | None => _ end) as [fds s3].
  specialize (Hf fds s3 eq_refl).
  assert (He : forall ex s4,
            match scan_exp s3 with
            | Some (e, s4) => (Some e, s4)
            | None => (None, s3)
            end = (ex, s4) -> String.length s4 <= String.length s3).
  { intros ex s4. destruct (scan_exp s3) as [[e s4']|] eqn:Ee.
    - apply scan_exp_length in Ee. intros [= _ <-]. lia.
    - intros [= _ <-]. lia. }
  destruct (match scan_exp s3 with Some _ => _ | None => _ end) as [ex s4].
  specialize (He ex s4 eq_refl).
  destruct fds, ex; intros [= _ <-]; lia.
Qed.

Lemma scan_atom_length s v rest :
  scan_atom s = Some (v, rest) -> String.length rest < String.length s.
Proof.
  unfold scan_atom, scan_constant.
  repeat match goal with
  | |- context [strip_prefix ?p s] =>
      let E := fresh "E" in
      destruct (strip_prefix p s) eqn:E;
      [apply strip_prefix_length in E; intros [= _ <-]; cbn in E; lia|]
  | |- context [scan_number s] =>
      let E := fresh "E" in
      destruct (scan_number s) as [[? ?]|] eqn:E;
      [apply scan_number_length in E; intros [= _ <-]; exact E|]
  end.
  discriminate.
Qed.

Lemma scan_length : forall fuel,
  (forall s v rest, scan_once fuel s = Some (v, rest) ->
                    String.length rest < String.length s) /\
  (forall acc s v rest, object_members fuel acc s = Some (v, rest) ->
                        String.length rest < String.length s) /\
  (forall acc s v rest, array_items fuel acc s = Some (v, rest) ->
                        String.length rest < String.length s).
Proof.
  induction fuel as [|fuel (IHs & IHo & IHa)]; [repeat split; discriminate|].
  split; [|split].
  - intros s v rest. cbn [scan_once]. destruct s as [|c r]; [discriminate|].
    destruct (Ascii.eqb c dquote).
    { destruct (scanstring r) as [[txt rest']|] eqn:E; [|discriminate].
      apply scanstring_length in E. intros [= _ <-]. cbn. lia. }
    destruct (Ascii.eqb c "{").
    { pose proof (skip_ws_length r) as Hw.
      destruct (skip_ws r) as [|c1 r1]; [discriminate|].
      destruct (Ascii.eqb c1 "}"); [intros [= _ <-]; cbn in *; lia|].
      intros Ho. apply IHo in Ho. cbn in *. lia. }
    destruct (Ascii.eqb c "[").
    { pose proof (skip_ws_length r) as Hw.
      destruct (skip_ws r) as [|c1 r1]; [discriminate|].
      destruct (Ascii.eqb c1 "]"); [intros [= _ <-]; cbn in *; lia|].
      intros Ha. apply IHa in Ha. cbn in *. lia. }
    apply scan_atom_length.
  - intros acc s v rest. cbn [object_members]. destruct s as [|c r]; [discriminate|].
    destruct (Ascii.eqb c dquote); [|discriminate].
    destruct (scanstring r) as [[key r1]|] eqn:Ek; [|discriminate].
    apply scanstring_length in Ek.
    pose proof (skip_ws_length r1) as Hw1.
    destruct (skip_ws r1) as [|c2 r2]; [discriminate|].
    destruct (Ascii.eqb c2 ":"); [|discriminate].
    pose proof (skip_ws_length r2) as Hw2.
    destruct (scan_once fuel (skip_ws r2)) as [[v' r3]|] eqn:Ev; [|discriminate].
    apply IHs in Ev.
    pose proof (skip_ws_length r3) as Hw3.
    destruct (skip_ws r3) as [|c4 r4]; [discriminate|].
    destruct (Ascii.eqb c4 "}"); [intros [= _ <-]; cbn in *; lia|].
    destruct (Ascii.eqb c4 ","); [|discriminate].
    pose proof (skip_ws_length r4) as Hw4.
    intros Ho. apply IHo in Ho. cbn in *. lia.
  - intros acc s v rest. cbn [array_items].
    destruct (scan_once fuel s) as [[v' r1]|] eqn:Ev; [|discriminate].
    apply IHs in Ev.
    pose proof (skip_ws_length r1) as Hw1.
    destruct (skip_ws r1) as [|c2 r2]; [discriminate|].
    destruct (Ascii.eqb c2 "]"); [intros [= _ <-]; cbn in *; lia|].
    destruct (Ascii.eqb c2 ","); [|discriminate].
    pose proof (skip_ws_length r2) as Hw2.
    intros Ha. apply IHa in Ha. cbn in *. lia.
Qed.

Lemma scan_fuel_enough : forall fuel,
  (forall fuel' s, 2 * String.length s + 1 <= fuel -> 2 * String.length s + 1 <= fuel' ->
                   scan_once fuel s = scan_once fuel' s) /\
  (forall fuel' acc s, 2 * String.length s <= fuel -> 2 * String.length s <= fuel' ->
                       object_members fuel acc s = object_members fuel' acc s) /\
  (forall fuel' acc s, 2 * String.length s + 2 <= fuel -> 2 * String.length s + 2 <= fuel' ->
                       array_items fuel acc s = array_items fuel' acc s).
Proof.
  induction fuel as [|fuel (IHs & IHo & IHa)].
  - split; [intros; lia|]. split; [|intros; lia].
    intros fuel' acc s Hf Hf'. destruct s; [|cbn in Hf; lia].
    destruct fuel'; reflexivity.
  - split; [|split].
    + intros fuel' s Hf Hf'. destruct fuel' as [|fuel']; [lia|].
      cbn [scan_once]. destruct s as [|c r]; [reflexivity|]. cbn [String.length] in Hf, Hf'.
      destruct (Ascii.eqb c dquote); [reflexivity|].
      destruct (Ascii.eqb c "{").
      { pose proof (skip_ws_length r) as Hw.
        destruct (skip_ws r) as [|c1 r1]; [reflexivity|].
        destruct (Ascii.eqb c1 "}"); [reflexivity|].
        apply IHo; cbn [String.length] in *; lia. }
      destruct (Ascii.eqb c "[").
      { pose proof (skip_ws_length r) as Hw.
        destruct (skip_ws r) as [|c1 r1]; [reflexivity|].
        destruct (Ascii.eqb c1 "]"); [reflexivity|].
        apply IHa; cbn [String.length] in *; lia. }
      reflexivity.
    + intros fuel' acc s Hf Hf'.
      destruct fuel' as [|fuel'].
      { destruct s; [reflexivity | cbn in Hf'; lia]. }
      cbn [object_members]. destruct s as [|c r]; [reflexivity|].
      cbn [String.length] in Hf, Hf'.
      destruct (Ascii.eqb c dquote); [|reflexivity].
      destruct (scanstring r) as [[key r1]|] eqn:Ek; [|reflexivity].
      apply scanstring_length in Ek.
      pose proof (skip_ws_length r1) as Hw1.
      destruct (skip_ws r1) as [|c2 r2]; [reflexivity|].
      destruct (Ascii.eqb c2 ":"); [|reflexivity].
      pose proof (skip_ws_length r2) as Hw2.
      rewrite (IHs fuel' (skip_ws r2)) by (cbn [String.length] in *; lia).
      destruct (scan_once fuel' (skip_ws r2)) as [[v' r3]|] eqn:Ev; [|reflexivity].
      apply (proj1 (scan_length fuel')) in Ev.
      pose proof (skip_ws_length r3) as Hw3.
      destruct (skip_ws r3) as [|c4 r4]; [reflexivity|].
      destruct (Ascii.eqb c4 "}"); [reflexivity|].
      destruct (Ascii.eqb c4 ","); [|reflexivity].
      pose proof (skip_ws_length r4) as Hw4.
      apply IHo; cbn [String.length] in *; lia.
    + intros fuel' acc s Hf Hf'. destruct fuel' as [|fuel']; [lia|].
      cbn [array_items].
      rewrite (IHs fuel' s) by lia.
      destruct (scan_once fuel' s) as [[v' r1]|] eqn:Ev; [|reflexivity].
      apply (proj1 (scan_length fuel')) in Ev.
      pose proof (skip_ws_length r1) as Hw1.
      destruct (skip_ws r1) as [|c2 r2]; [reflexivity|].
      destruct (Ascii.eqb c2 "]"); [reflexivity|].
      destruct (Ascii.eqb c2 ","); [|reflexivity].
      pose proof (skip_ws_length r2) as Hw2.
      apply IHa; cbn [String.length] in *; lia.
Qed.

(** The fuel given by [loads] is enough: more fuel reads the same value. *)
Lemma loads_fuel_enough s fuel :
  2 * S (String.length s) <= fuel ->
  scan_once fuel (skip_ws s) = scan_once (2 * S (String.length s)) (skip_ws s).
Proof.
  intros Hf. pose proof (skip_ws_length s) as Hw.
  apply (proj1 (scan_fuel_enough fuel)); lia.
Qed.

End JsonFacts.

Example loads_object :
  Json.loads (duration_config "2.5") = Ok (PDict [("duration_sec", PFloat (FFin (25 # 10)))]).
Proof. reflexivity. Qed.

Example loads_last_key_wins :
  Json.loads ("{" +++ String Json.dquote ("a" +++ String Json.dquote (": 1, " +++
              String Json.dquote ("a" +++ String Json.dquote ": [null, true]}"))))
  = Ok (PDict [("a", PList [PNone; PBool true])]).
Proof. reflexivity. Qed.

Example loads_escape :
  Json.loads (String Json.dquote ("duration\n" +++ String Json.dquote ""))
  = Ok (PStr ("duration" +++ String "010" "")).
Proof. reflexivity. Qed.

Example loads_rejects :
  map Json.loads [""; " "; "{"; "[1,]"; "01"; "1."; "-"; "{} {}"; "nul"; "'a'"]
  = repeat (Raise JSONDecodeError) 10.
Proof. reflexivity. Qed.

Example loads_constants :
  map Json.loads ["NaN"; "-Infinity"; "1e400"; " -0 "]
  = [Ok (PFloat FNan); Ok (PFloat (FInf true)); Ok (PFloat (FInf false)); Ok (PInt 0)].
Proof. reflexivity. Qed.

(** ** Bytes and the length header *)

Lemma Z_of_byte_of_Z z : Z_of_byte (byte_of_Z z) = Z.land z 255.
Proof.
  unfold Z_of_byte, byte_of_Z.
  assert (Hr : 0 <= Z.land z 255 < 256).
  { change 255 with (Z.ones 8). rewrite Z.land_ones by lia.
    apply Z.mod_pos_bound. lia. }
  destruct (Byte.of_N (Z.to_N (Z.land z 255))) as [b|] eqn:E.
  - apply Byte.to_of_N in E. rewrite E. lia.
  - apply Byte.of_N_None_iff in E. lia.
Qed.

Lemma unpack_pack_I n hdr :
  struct_pack_I n = Ok hdr -> List.length hdr = 4%nat /\ unpack_I hdr = Some n.
Proof.
  unfold struct_pack_I.
  destruct ((0 <=? n) && (n <? 2 ^ 32)) eqn:E; [|discriminate].
  intros [= <-]. split; [reflexivity|].
  apply andb_true_iff in E. destruct E as [E1 E2].
  apply Z.leb_le in E1. apply Z.ltb_lt in E2.
  unfold unpack_I, be32. rewrite !Z_of_byte_of_Z. f_equal.
  change 255 with (Z.ones 8). rewrite !Z.land_ones by lia.
  rewrite !Z.shiftr_div_pow2 by lia.
  change (2 ^ 8) with 256. change (2 ^ 16) with 65536.
  change (2 ^ 24) with 16777216. change (2 ^ 32) with 4294967296 in E2.
  Z.div_mod_to_equations. lia.
Qed.

Lemma struct_pack_I_range n :
  (exists hdr, struct_pack_I n = Ok hdr) <-> 0 <= n < 2 ^ 32.
Proof.
  unfold struct_pack_I. split.
  - intros [hdr Hh]. destruct ((0 <=? n) && (n <? 2 ^ 32)) eqn:E; [|discriminate].
    apply andb_true_iff in E. destruct E as [E1 E2].
    apply Z.leb_le in E1. apply Z.ltb_lt in E2. lia.
  - intros [H1 H2].
    apply Z.leb_le in H1. apply Z.ltb_lt in H2. rewrite H1, H2. simpl. eauto.
Qed.

Lemma struct_pack_I_ok n : 0 <= n < 2 ^ 32 -> struct_pack_I n = Ok (be32 n).
Proof.
  intros [H1 H2]. unfold struct_pack_I.
  apply Z.leb_le in H1. apply Z.ltb_lt in H2. now rewrite H1, H2.
Qed.

(** ** Blending on a black canvas *)

Lemma DIV255_exact m : 0 <= m <= 255 -> DIV255 (255 * m) = m.
Proof.
  intros Hm. unfold DIV255. cbv zeta.
  rewrite !Z.shiftr_div_pow2 by lia. change (2 ^ 8) with 256.
  Z.div_mod_to_equations. lia.
Qed.

Lemma BLEND_black_white m : 0 <= m <= 255 -> BLEND m 0 255 = m.
Proof.
  intros Hm. unfold BLEND. replace (0 * (255 - m) + 255 * m) with (255 * m) by lia.
  now apply DIV255_exact.
Qed.

Lemma land_255_range z : 0 <= Z.land z 255 <= 255.
Proof.
  change 255 with (Z.ones 8) at 1 2. rewrite Z.land_ones by lia.
  pose proof (Z.mod_pos_bound z (2 ^ 8)). change (2 ^ 8) with 256 in *. lia.
Qed.

Lemma mask_at_range bm x0 y0 x y m :
  mask_at bm x0 y0 x y = Some m -> 0 <= m <= 255.
Proof.
  unfold mask_at.
  destruct ((0 <=? x - x0) && (x - x0 <? bm_width bm) &&
            (0 <=? y - y0) && (y - y0 <? bm_height bm)); [|discriminate].
  intros [= <-]. apply land_255_range.
Qed.

(** ** Pixels of a painted image *)

Lemma paint_length f i data : List.length (paint f i data) = List.length data.
Proof.
  revert i. induction data as [|p rest IH]; intros i; simpl; [reflexivity|].
  now rewrite IH.
Qed.

Lemma paint_nth f data : forall i k d,
  (k < List.length data)%nat ->
  nth k (paint f i data) d = f (i + Z.of_nat k) (nth k data d).
Proof.
  induction data as [|p rest IH]; intros i k d Hk; simpl in Hk; [lia|].
  destruct k as [|k]; simpl.
  - now rewrite Z.add_0_r.
  - rewrite IH by lia. f_equal. lia.
Qed.

Lemma paint_Forall (P Q : pixel -> Prop) f data :
  (forall i p, Q p -> P (f i p)) -> Forall Q data -> forall i, Forall P (paint f i data).
Proof.
  intros Hf HQ. induction HQ as [|p rest Hp Hrest IH]; intros i; simpl; constructor; auto.
Qed.

Lemma nth_repeat_black k n : nth k (repeat (0, 0, 0) n) (0, 0, 0) = (0, 0, 0).
Proof.
  revert k. induction n as [|n IH]; intros [|k]; simpl; auto.
Qed.

Lemma getpixel_new mode w h x y : getpixel (Image_new mode (w, h)) x y = (0, 0, 0).
Proof.
  unfold getpixel, Image_new. simpl. apply nth_repeat_black.
Qed.

Lemma getpixel_draw_bitmap img x0 y0 bm ink x y :
  0 <= x < im_width img -> 0 <= y < im_height img ->
  Z.of_nat (List.length (im_data img)) = im_width img * im_height img ->
  getpixel (draw_bitmap img (x0, y0) bm ink) x y =
  match mask_at bm x0 y0 x y with
  | Some m => blend_pixel m (getpixel img x y) ink
  | None => getpixel img x y
  end.
Proof.
  intros Hx Hy Hlen. unfold getpixel, draw_bitmap. simpl.
  assert (Hidx : 0 <= y * im_width img + x < im_width img * im_height img) by nia.
  rewrite paint_nth by lia.
  rewrite Z.add_0_l, Z2Nat.id by lia.
  replace ((y * im_width img + x) mod im_width img) with x.
  2:{ rewrite Z.add_comm, Z.mod_add by lia. now rewrite Z.mod_small. }
  replace ((y * im_width img + x) / im_width img) with y.
  2:{ rewrite Z.add_comm, Z.div_add by lia. rewrite Z.div_small; lia. }
  reflexivity.
Qed.

(** ** The rendered canvas *)

Lemma blend_black_white m :
  0 <= m <= 255 -> blend_pixel m (0, 0, 0) (255, 255, 255) = (m, m, m).
Proof.
  intros Hm. unfold blend_pixel. now rewrite BLEND_black_white.
Qed.

Lemma render_unfold font s :
  render font s =
  draw_bitmap (Image_new "RGB" (W, H))
    (fst (text_origin (fst (getsize font s)) (snd (getsize font s)))
       + fst (snd (getmask2 font s)),
     snd (text_origin (fst (getsize font s)) (snd (getsize font s)))
       + snd (snd (getmask2 font s)))
    (fst (getmask2 font s)) (255, 255, 255).
Proof.
  unfold render, textsize, draw_text.
  destruct (getsize font s) as [tw th]. destruct (getmask2 font s) as [bm off].
  reflexivity.
Qed.

Lemma coverage_unfold font s x y :
  coverage font s x y =
  match mask_at (fst (getmask2 font s))
          (fst (text_origin (fst (getsize font s)) (snd (getsize font s)))
             + fst (snd (getmask2 font s)))
          (snd (text_origin (fst (getsize font s)) (snd (getsize font s)))
             + snd (snd (getmask2 font s))) x y with
  | Some m => m
  | None => 0
  end.
Proof.
  unfold coverage.
  destruct (getsize font s) as [tw th]. destruct (getmask2 font s) as [bm off].
  reflexivity.
Qed.

Lemma coverage_range font s x y : 0 <= coverage font s x y <= 255.
Proof.
  rewrite coverage_unfold.
  destruct (mask_at _ _ _ x y) as [m|] eqn:E; [|lia].
  now apply mask_at_range in E.
Qed.

Lemma new_canvas_data : im_data (Image_new "RGB" (W, H)) = repeat (0, 0, 0) (Z.to_nat 8192).
Proof. reflexivity. Qed.

Lemma new_canvas_length : Z.of_nat (List.length (im_data (Image_new "RGB" (W, H)))) = 8192.
Proof. rewrite new_canvas_data, repeat_length. reflexivity. Qed.

Lemma render_canvas_ok font s : canvas_ok (render font s).
Proof.
  rewrite render_unfold. unfold canvas_ok, draw_bitmap. cbn [im_mode im_width im_height im_data].
  do 3 (split; [reflexivity|]). split.
  - rewrite paint_length. apply new_canvas_length.
  - apply paint_Forall with (Q := fun p => p = (0, 0, 0)).
    + intros i p ->. destruct (mask_at _ _ _ _ _) as [m|] eqn:E.
      * rewrite blend_black_white by (eapply mask_at_range; eauto).
        apply mask_at_range in E. unfold pixel_ok, channel_ok. lia.
      * unfold pixel_ok, channel_ok. lia.
    + rewrite new_canvas_data. apply Forall_forall. intros p Hp.
      now apply repeat_spec in Hp.
Qed.

Lemma render_getpixel font s x y :
  0 <= x < 128 -> 0 <= y < 64 ->
  getpixel (render font s) x y =
  (coverage font s x y, coverage font s x y, coverage font s x y).
Proof.
  intros Hx Hy. rewrite render_unfold, coverage_unfold.
  rewrite getpixel_draw_bitmap;
    [| cbn; unfold W; lia | cbn; unfold H; lia | rewrite new_canvas_length; reflexivity].
  rewrite getpixel_new.
  destruct (mask_at _ _ _ x y) as [m|] eqn:E; [|reflexivity].
  apply blend_black_white. eapply mask_at_range; eauto.
Qed.

(** ** The text of the clock *)

Lemma digit_val_chr d : 0 <= d <= 9 -> digit_val (Json.chr (48 + d)) = Some d.
Proof.
  intros Hd. unfold digit_val, Json.is_digit, Json.code, Json.chr.
  rewrite N_ascii_embedding by lia.
  rewrite Z2N.id by lia.
  replace (48 <=? 48 + d) with true by (symmetry; apply Z.leb_le; lia).
  replace (48 + d <=? 57) with true by (symmetry; apply Z.leb_le; lia).
  cbn [andb]. f_equal. lia.
Qed.

Lemma parse_two_digits a b c :
  0 <= a < 100 -> 0 <= b < 100 -> 0 <= c < 100 ->
  parse_HMS (two_digits a +++ ":" +++ two_digits b +++ ":" +++ two_digits c) = Some (a, b, c).
Proof.
  intros Ha Hb Hc. unfold two_digits. cbn [append]. unfold parse_HMS.
  rewrite !digit_val_chr by (Z.div_mod_to_equations; lia).
  cbn [Ascii.eqb Bool.eqb andb].
  repeat f_equal; Z.div_mod_to_equations; lia.
Qed.

Lemma parse_format_HMS off secs :
  let local := secs + off in
  parse_HMS (format_HMS off secs) =
    Some ((local mod 86400) / 3600, (local mod 3600) / 60, local mod 60) /\
  0 <= (local mod 86400) / 3600 < 24 /\
  0 <= (local mod 3600) / 60 < 60 /\
  0 <= local mod 60 < 60.
Proof.
  intros local.
  assert (Hh : 0 <= (local mod 86400) / 3600 < 24).
  { pose proof (Z.mod_pos_bound local 86400).
    split; [apply Z.div_pos; lia | apply Z.div_lt_upper_bound; lia]. }
  assert (Hm : 0 <= (local mod 3600) / 60 < 60).
  { pose proof (Z.mod_pos_bound local 3600).
    split; [apply Z.div_pos; lia | apply Z.div_lt_upper_bound; lia]. }
  assert (Hs : 0 <= local mod 60 < 60) by (apply Z.mod_pos_bound; lia).
  repeat split; try lia.
  unfold format_HMS. fold local. apply parse_two_digits; lia.
Qed.

(** ** The renderer *)

(** C6. For the measured size [(w, h)] the text is drawn from the origin
    [((128 - w) // 2, (64 - h) // 2)]: the quotients are floors (so the
    origin is negative exactly when the text is larger than the canvas), and
    the text is handed to [text] at that origin as it is. *)
Theorem text_origin_centred font s w h :
  textsize s font = (w, h) ->
  let ox := (128 - w) / 2 in
  let oy := (64 - h) / 2 in
  text_origin w h = (ox, oy) /\
  2 * ox <= 128 - w < 2 * ox + 2 /\
  2 * oy <= 64 - h < 2 * oy + 2 /\
  (ox <? 0) = (128 <? w) /\
  (oy <? 0) = (64 <? h) /\
  render font s = draw_text (Image_new "RGB" (128, 64)) (ox, oy) s (255, 255, 255) font.
Proof.
  intros Hsize ox oy.
  split; [reflexivity|].
  split; [subst ox; Z.div_mod_to_equations; lia|].
  split; [subst oy; Z.div_mod_to_equations; lia|].
  split.
  { subst ox. destruct (Z.ltb_spec ((128 - w) / 2) 0), (Z.ltb_spec 128 w);
      try reflexivity; exfalso; Z.div_mod_to_equations; lia. }
  split.
  { subst oy. destruct (Z.ltb_spec ((64 - h) / 2) 0), (Z.ltb_spec 64 h);
      try reflexivity; exfalso; Z.div_mod_to_equations; lia. }
  unfold render. rewrite Hsize. reflexivity.
Qed.

Lemma text_origin_centred_witness :
  text_origin 136 10 = (-4, 27) /\
  render demo_font "wide text on it!!" =
    draw_text (Image_new "RGB" (128, 64)) (-4, 27) "wide text on it!!" (255, 255, 255)
      demo_font.
Proof.
  pose proof (text_origin_centred demo_font "wide text on it!!" 136 10 eq_refl) as Hc.
  cbv zeta in Hc. destruct Hc as (Ho & _ & _ & _ & _ & Hr).
  split; [exact Ho | exact Hr].
Defined.

(** C7. The canvas of a tick depends on the clock only through the reading
    cut to whole seconds: two render steps whose readings fall in the same
    second, with the same font, return the same canvas, pixel for pixel. *)
Theorem render_deterministic env font st1 st2 :
  Qfloor (env_clock env (st_reads st1)) = Qfloor (env_clock env (st_reads st2)) ->
  fst (render_tick env font st1) = fst (render_tick env font st2) /\
  exists img, fst (render_tick env font st1) = Return img /\ canvas_ok img.
Proof.
  intros Hsec. unfold render_tick, time_strftime_HMS, time_time, bind, ret. cbn [fst].
  rewrite Hsec. split; [reflexivity|].
  eexists. split; [reflexivity | apply render_canvas_ok].
Qed.

Lemma render_deterministic_witness :
  fst (render_tick (demo_env "") demo_font (mkState 4 [])) =
  fst (render_tick (demo_env "") demo_font (mkState 7 [EvFlush])).
Proof.
  refine (proj1 (render_deterministic (demo_env "") demo_font (mkState 4 [])
                   (mkState 7 [EvFlush]) _)).
  vm_compute. reflexivity.
Defined.

(** C8. Each tick starts from a new 128 by 64 RGB image, all black, and
    draws on it, in white, the local time of the clock reading as
    [HH:MM:SS] (hours below 24, two digits each).  On the result, the pixel
    at [(x, y)] has the glyph coverage there on all three channels: black
    where the glyphs do not reach, white where they cover fully, never
    above 255. *)
Theorem tick_canvas env font st x y :
  0 <= x < 128 -> 0 <= y < 64 ->
  let fresh := Image_new "RGB" (W, H) in
  let secs := Qfloor (env_clock env (st_reads st)) in
  let local := secs + env_utcoffset env secs in
  let s := format_HMS (env_utcoffset env secs) secs in
  let c := coverage font s x y in
  (im_mode fresh = "RGB" /\ im_width fresh = 128 /\ im_height fresh = 64 /\
   im_data fresh = repeat (0, 0, 0) (Z.to_nat (128 * 64))) /\
  render_tick env font st =
    (Return (render font s), mkState (S (st_reads st)) (st_trace st)) /\
  render font s =
    draw_text fresh (text_origin (fst (textsize s font)) (snd (textsize s font)))
      s (255, 255, 255) font /\
  parse_HMS s = Some ((local mod 86400) / 3600, (local mod 3600) / 60, local mod 60) /\
  0 <= (local mod 86400) / 3600 < 24 /\
  0 <= (local mod 3600) / 60 < 60 /\
  0 <= local mod 60 < 60 /\
  canvas_ok (render font s) /\
  getpixel (render font s) x y = (c, c, c) /\
  0 <= c <= 255.
Proof.
  intros Hx Hy fresh secs local s c.
  split; [repeat split|].
  split; [reflexivity|].
  split.
  { unfold render. destruct (textsize s font) as [tw th]. reflexivity. }
  pose proof (parse_format_HMS (env_utcoffset env secs) secs) as Hfmt.
  cbv zeta in Hfmt. destruct Hfmt as (Hp & Hh & Hm & Hs).
  split; [exact Hp|]. split; [exact Hh|]. split; [exact Hm|]. split; [exact Hs|].
  split; [apply render_canvas_ok|].
  split; [now apply render_getpixel | apply coverage_range].
Qed.

Lemma tick_canvas_witness :
  getpixel (render demo_font "01:16:40") 32 27 = (255, 255, 255) /\
  getpixel (render demo_font "01:16:40") 38 27 = (0, 0, 0).
Proof.
  pose proof (tick_canvas (demo_env "") demo_font initial 32 27
                ltac:(lia) ltac:(lia)) as H1.
  pose proof (tick_canvas (demo_env "") demo_font initial 38 27
                ltac:(lia) ltac:(lia)) as H2.
  cbv zeta in H1, H2.
  destruct H1 as (_ & _ & _ & _ & _ & _ & _ & _ & H1 & _).
  destruct H2 as (_ & _ & _ & _ & _ & _ & _ & _ & H2 & _).
  split; [exact H1 | exact H2].
Defined.

(** ** The font loader *)

(** C4. Whatever loading FreeSans does, the loader returns a font and
    leaves the state alone: the loaded font when the load succeeds, the
    built-in one when it raises, whatever it raises. *)
Theorem load_font_never_fails env st :
  exists font,
    load_font env st = (Return font, st) /\
    match env_truetype env FreeSans 28 with
    | Ok preferred => font = preferred
    | Raise _ => font = env_load_default env
    end.
Proof.
  unfold load_font, try_except, lift, ret.
  destruct (env_truetype env FreeSans 28) as [preferred|e]; eauto.
Qed.

(** ** The emitter and the loop *)

Lemma send_ok env img st :
  Z.of_nat (List.length (env_png env img)) < 2 ^ 32 ->
  send env img st =
    (Return tt,
     mkState (st_reads st)
       (st_trace st ++
          [EvWrite (be32 (Z.of_nat (List.length (env_png env img))));
           EvWrite (env_png env img); EvFlush])).
Proof.
  intros Hlen. unfold send. rewrite struct_pack_I_ok by lia.
  unfold bind, lift, stdout_write, stdout_flush, emit. cbn.
  rewrite <- !app_assoc. reflexivity.
Qed.

Lemma send_too_long env img st :
  2 ^ 32 <= Z.of_nat (List.length (env_png env img)) ->
  send env img st = (Throw StructError, st).
Proof.
  intros Hlen. unfold send, struct_pack_I.
  replace (Z.of_nat (List.length (env_png env img)) <? 2 ^ 32) with false
    by (symmetry; apply Z.ltb_ge; lia).
  rewrite andb_false_r. reflexivity.
Qed.

(** One pass of the loop body: either a whole frame and a sleep, or (an
    encoding of 4 GiB or more) [struct.error] with nothing written. *)
Lemma tick_cases env font st :
  let secs := Qfloor (env_clock env (st_reads st)) in
  let img := render font (format_HMS (env_utcoffset env secs) secs) in
  (Z.of_nat (List.length (env_png env img)) < 2 ^ 32 /\
   tick env font st =
     (Return tt, mkState (S (st_reads st)) (st_trace st ++ frame_events env img)))
  \/
  (2 ^ 32 <= Z.of_nat (List.length (env_png env img)) /\
   tick env font st = (Throw StructError, mkState (S (st_reads st)) (st_trace st))).
Proof.
  intros secs img.
  destruct (Z.lt_ge_cases (Z.of_nat (List.length (env_png env img))) (2 ^ 32)) as [Hlt|Hge].
  - left. split; [exact Hlt|].
    unfold tick, render_tick, time_strftime_HMS, time_time. unfold bind at 1 2 3. unfold ret.
    fold secs. fold img. unfold bind. rewrite send_ok by exact Hlt.
    unfold time_sleep, emit, frame_events. cbn [st_reads st_trace].
    rewrite <- app_assoc. reflexivity.
  - right. split; [exact Hge|].
    unfold tick, render_tick, time_strftime_HMS, time_time. unfold bind at 1 2 3. unfold ret.
    fold secs. fold img. unfold bind. rewrite send_too_long by exact Hge. reflexivity.
Qed.

Lemma loop_trace env font deadline : forall fuel st,
  exists imgs,
    st_trace (snd (loop env fuel deadline font st)) =
      st_trace st ++ flat_map (frame_events env) imgs /\
    Forall (emitted_by env font) imgs.
Proof.
  induction fuel as [|fuel IH]; intros st.
  - exists []. cbn. now rewrite app_nil_r.
  - cbn [loop]. unfold bind at 1. unfold time_time at 1.
    destruct (fltb _ deadline).
    + unfold bind at 1.
      destruct (tick_cases env font (mkState (S (st_reads st)) (st_trace st)))
        as [[Hlen Ht]|[Hlen Ht]]; cbv zeta in Ht; rewrite Ht.
      * cbv beta iota.
        match goal with |- context [loop env fuel deadline font ?s1] =>
          destruct (IH s1) as (imgs & Htr & Hall)
        end.
        eexists (_ :: imgs). split.
        -- rewrite Htr. cbn [st_trace flat_map]. rewrite <- app_assoc. reflexivity.
        -- constructor; [|exact Hall]. split; [eauto | exact Hlen].
      * exists []. cbn. now rewrite app_nil_r.
    + exists []. cbn. now rewrite app_nil_r.
Qed.

Lemma main_eq env fuel st :
  main env fuel st =
  match config env with
  | Raise e => (Throw e, st)
  | Ok params =>
    let st1 := mkState (S (st_reads st)) (st_trace st) in
    match duration_sec params with
    | Raise e => (Throw e, st1)
    | Ok d =>
      match py_float_add (FFin (env_clock env (st_reads st))) d with
      | Raise e => (Throw e, st1)
      | Ok deadline => bind (load_font env) (fun font => loop env fuel deadline font) st1
      end
    end
  end.
Proof.
  unfold main, read_params, sys_stdin_read, config, compute_deadline, time_time.
  unfold bind at 1 2. unfold ret at 1. unfold lift at 1.
  destruct (Json.loads _) as [params|e]; [|reflexivity].
  unfold bind at 1 2 3. unfold lift at 1.
  destruct (duration_sec params) as [d|e]; [|reflexivity].
  unfold lift.
  destruct (py_float_add _ d) as [deadline|e]; reflexivity.
Qed.

Lemma load_font_eq env st :
  load_font env st =
    (Return match env_truetype env FreeSans 28 with
            | Ok preferred => preferred
            | Raise _ => env_load_default env
            end, st).
Proof.
  unfold load_font, try_except, lift, ret.
  destruct (env_truetype env FreeSans 28); reflexivity.
Qed.

Lemma main_trace env fuel :
  exists imgs font,
    st_trace (snd (main env fuel initial)) = flat_map (frame_events env) imgs /\
    Forall (emitted_by env font) imgs.
Proof.
  rewrite main_eq.
  destruct (config env) as [params|e]; [|exists [], (env_load_default env); split; auto].
  cbv zeta.
  destruct (duration_sec params) as [d|e]; [|exists [], (env_load_default env); split; auto].
  destruct (py_float_add _ d) as [deadline|e];
    [|exists [], (env_load_default env); split; auto].
  unfold bind. rewrite load_font_eq.
  match goal with |- context [loop env fuel deadline ?f ?st] =>
    destruct (loop_trace env f deadline fuel st) as (imgs & Htr & Hall);
    exists imgs, f
  end.
  split; [exact Htr | exact Hall].
Qed.

(** ** The stream seen by the consumer *)

Lemma written_app tr1 tr2 : written (tr1 ++ tr2) = written tr1 ++ written tr2.
Proof.
  induction tr1 as [|[data| |q] tr1 IH]; cbn; [reflexivity| |assumption|assumption].
  now rewrite IH, app_assoc.
Qed.

Lemma written_frames env imgs :
  written (flat_map (frame_events env) imgs) =
  flat_map (fun img => be32 (Z.of_nat (List.length (env_png env img))) ++ env_png env img) imgs.
Proof.
  induction imgs as [|img imgs IH]; [reflexivity|].
  cbn [flat_map]. rewrite written_app, IH. unfold frame_events. cbn [written].
  now rewrite app_nil_r, <- app_assoc.
Qed.

Lemma flushed_frames env imgs :
  flushed (flat_map (frame_events env) imgs) = written (flat_map (frame_events env) imgs).
Proof.
  unfold flushed. induction imgs as [|img imgs IH]; [reflexivity|].
  cbn [flat_map]. rewrite written_app. unfold frame_events at 1 3.
  cbn [app flushed_acc written]. rewrite IH. now rewrite app_nil_r.
Qed.

Lemma read_frame_framed blob rest :
  Z.of_nat (List.length blob) < 2 ^ 32 ->
  read_frame (be32 (Z.of_nat (List.length blob)) ++ blob ++ rest) = Some (blob, rest).
Proof.
  intros Hlen. unfold read_frame.
  change (firstn 4 (be32 (Z.of_nat (List.length blob)) ++ blob ++ rest))
    with (be32 (Z.of_nat (List.length blob))).
  change (skipn 4 (be32 (Z.of_nat (List.length blob)) ++ blob ++ rest))
    with (blob ++ rest).
  destruct (unpack_pack_I (Z.of_nat (List.length blob)) (be32 (Z.of_nat (List.length blob))))
    as [_ Hun].
  { apply struct_pack_I_ok. lia. }
  rewrite Hun. rewrite length_app.
  replace (Z.of_nat (List.length blob + List.length rest) <? Z.of_nat (List.length blob))
    with false by (symmetry; apply Z.ltb_ge; lia).
  rewrite Nat2Z.id.
  rewrite firstn_app, Nat.sub_diag, firstn_all, firstn_O, app_nil_r.
  rewrite skipn_app, Nat.sub_diag, skipn_all. reflexivity.
Qed.

Lemma read_frames_framed env font imgs :
  Forall (emitted_by env font) imgs ->
  forall fuel, (List.length imgs <= fuel)%nat ->
  read_frames fuel (written (flat_map (frame_events env) imgs)) = Some (map (env_png env) imgs).
Proof.
  rewrite written_frames.
  induction 1 as [|img imgs [_ Hlen] Hall IH]; intros fuel Hfuel.
  - destruct fuel; reflexivity.
  - cbn [List.length] in Hfuel. destruct fuel as [|fuel]; [lia|].
    cbn [flat_map map]. rewrite <- app_assoc.
    remember (flat_map _ imgs) as rest.
    cbn [read_frames be32 app].
    change (byte_of_Z (Z.shiftr (Z.of_nat (List.length (env_png env img))) 24)
            :: byte_of_Z (Z.shiftr (Z.of_nat (List.length (env_png env img))) 16)
            :: byte_of_Z (Z.shiftr (Z.of_nat (List.length (env_png env img))) 8)
            :: byte_of_Z (Z.of_nat (List.length (env_png env img)))
            :: env_png env img ++ rest)
      with (be32 (Z.of_nat (List.length (env_png env img))) ++ env_png env img ++ rest).
    rewrite read_frame_framed by exact Hlen.
    subst rest. rewrite IH by lia. reflexivity.
Qed.

Lemma written_frames_length env imgs :
  (List.length imgs <= List.length (written (flat_map (frame_events env) imgs)))%nat.
Proof.
  rewrite written_frames. induction imgs as [|img imgs IH]; [cbn; lia|].
  cbn [flat_map]. rewrite !length_app. cbn [List.length be32]. lia.
Qed.

(** The raw encoder of the concrete environment has a decoder. *)
Lemma group3_raw data :
  Forall pixel_ok data ->
  group3 (flat_map (fun p : pixel =>
            let '(r, g, b) := p in [byte_of_Z r; byte_of_Z g; byte_of_Z b]) data) = data.
Proof.
  induction 1 as [|[[r g] b] data (Hr & Hg & Hb) Hall IH]; [reflexivity|].
  cbn [flat_map app group3]. rewrite IH, !Z_of_byte_of_Z.
  unfold channel_ok in *.
  change 255 with (Z.ones 8). rewrite !Z.land_ones by lia.
  rewrite !Z.mod_small by (change (2 ^ 8) with 256; lia). reflexivity.
Qed.

Lemma raw_length data :
  List.length (flat_map (fun p : pixel =>
            let '(r, g, b) := p in [byte_of_Z r; byte_of_Z g; byte_of_Z b]) data)
  = (3 * List.length data)%nat.
Proof.
  induction data as [|[[r g] b] data IH]; [reflexivity|].
  cbn [flat_map app List.length]. rewrite IH. lia.
Qed.

Lemma raw_roundtrip img : canvas_ok img -> raw_decode (raw_encode img) = Some img.
Proof.
  destruct img as [mode w h data]. unfold canvas_ok. cbn [im_mode im_width im_height im_data].
  intros (-> & -> & -> & Hlen & Hall).
  unfold raw_decode, raw_encode. cbn [im_data].
  rewrite raw_length, group3_raw by exact Hall.
  replace (Z.of_nat (3 * List.length data) =? 24576) with true
    by (symmetry; apply Z.eqb_eq; lia).
  reflexivity.
Qed.

Lemma frames_length env imgs :
  List.length (flat_map (frame_events env) imgs) = (4 * List.length imgs)%nat.
Proof.
  induction imgs as [|img imgs IH]; [reflexivity|].
  cbn [flat_map]. rewrite length_app, IH. cbn [List.length frame_events]. lia.
Qed.

(** C2. [send] writes the four-byte big-endian length of the encoded image,
    then the encoded image, then flushes (or, were the encoding 4 GiB or
    more, raises before writing anything).  Whatever the run of [main]
    (returned, raised, or still looping when the fuel ran out), its trace is
    a sequence of such frames, each followed by the sleep, and every byte
    written has been flushed.  A consumer that reads four bytes as a length
    [N] and then [N] bytes, again and again, gets back exactly the encoded
    canvases; with a decoder [png_open] that inverts the encoder on canvases,
    each of them decodes to a 128 by 64 image. *)
Theorem emitted_frames_framed env (png_open : list byte -> option Image) fuel img st :
  (forall canvas, canvas_ok canvas -> png_open (env_png env canvas) = Some canvas) ->
  send env img st =
    (if Z.of_nat (List.length (env_png env img)) <? 2 ^ 32
     then (Return tt,
           mkState (st_reads st)
             (st_trace st ++ [EvWrite (be32 (Z.of_nat (List.length (env_png env img))));
                              EvWrite (env_png env img); EvFlush]))
     else (Throw StructError, st)) /\
  let tr := st_trace (snd (main env fuel initial)) in
  exists imgs,
    tr = flat_map (frame_events env) imgs /\
    flushed tr = written tr /\
    read_frames (List.length (written tr)) (written tr) = Some (map (env_png env) imgs) /\
    Forall (fun canvas =>
      let blob := env_png env canvas in
      let n := Z.of_nat (List.length blob) in
      struct_pack_I n = Ok (be32 n) /\
      List.length (be32 n) = 4%nat /\
      unpack_I (be32 n) = Some n /\
      png_open blob = Some canvas /\
      im_width canvas = 128 /\ im_height canvas = 64) imgs.
Proof.
  intros Hcodec. split.
  { destruct (Z.ltb_spec (Z.of_nat (List.length (env_png env img))) (2 ^ 32)).
    - now apply send_ok.
    - now apply send_too_long. }
  intros tr.
  destruct (main_trace env fuel) as (imgs & font & Htr & Hall).
  fold tr in Htr. exists imgs.
  split; [exact Htr|].
  split; [rewrite Htr; apply flushed_frames|].
  split.
  { rewrite Htr. eapply read_frames_framed; [exact Hall | apply written_frames_length]. }
  eapply Forall_impl; [|exact Hall].
  intros canvas [[s ->] Hlen]. cbv zeta.
  assert (Hpack : struct_pack_I (Z.of_nat (List.length (env_png env (render font s)))) =
                  Ok (be32 (Z.of_nat (List.length (env_png env (render font s)))))).
  { apply struct_pack_I_ok. lia. }
  destruct (unpack_pack_I _ _ Hpack) as [H4 Hun].
  pose proof (render_canvas_ok font s) as Hok.
  split; [exact Hpack|]. split; [exact H4|]. split; [exact Hun|].
  split; [apply Hcodec; exact Hok|].
  destruct Hok as (_ & Hw & Hh & _). split; assumption.
Qed.

Lemma emitted_frames_framed_witness :
  exists imgs,
    List.length imgs = 2%nat /\
    st_trace (snd (main (demo_env (duration_config "1")) 10 initial)) =
      flat_map (frame_events (demo_env (duration_config "1"))) imgs /\
    read_frames
      (List.length (written (st_trace (snd (main (demo_env (duration_config "1")) 10 initial)))))
      (written (st_trace (snd (main (demo_env (duration_config "1")) 10 initial))))
      = Some (map raw_encode imgs) /\
    Forall (fun img =>
      raw_decode (raw_encode img) = Some img /\ im_width img = 128 /\ im_height img = 64) imgs.
Proof.
  destruct (emitted_frames_framed (demo_env (duration_config "1")) raw_decode 10
              (Image_new "RGB" (W, H)) initial raw_roundtrip)
    as (_ & imgs & Htr & _ & Hread & Hall).
  exists imgs. split.
  { pose proof (f_equal (@List.length event) Htr) as Hlen.
    rewrite frames_length in Hlen.
    assert (H8 : List.length
                   (st_trace (snd (main (demo_env (duration_config "1")) 10 initial))) = 8%nat)
      by (vm_compute; reflexivity).
    rewrite H8 in Hlen. lia. }
  split; [exact Htr|]. split; [exact Hread|].
  eapply Forall_impl; [|exact Hall].
  cbv zeta. intros img (_ & _ & _ & Hdec & Hw & Hh). auto.
Defined.

(** ** Start-up: configuration and deadline *)

Lemma Qlt_bool_iff x y : Qlt_bool x y = true <-> (x < y)%Q.
Proof.
  unfold Qlt_bool. rewrite negb_true_iff. split.
  - intros Hb. apply Qnot_le_lt. intros Hle. apply Qle_bool_iff in Hle. congruence.
  - intros Hlt. destruct (Qle_bool y x) eqn:E; [|reflexivity].
    apply Qle_bool_iff in E. exfalso. now apply (Qlt_not_le x y).
Qed.

Lemma Qlt_bool_false x y : (y <= x)%Q -> Qlt_bool x y = false.
Proof.
  intros Hle. unfold Qlt_bool. apply negb_false_iff. now apply Qle_bool_iff.
Qed.

(** The loop stops at its first test when the clock is not before the
    deadline. *)
Lemma loop_stops_at_once env fuel deadline font st :
  fltb (FFin (env_clock env (st_reads st))) deadline = false ->
  loop env (S fuel) deadline font st = (Return tt, mkState (S (st_reads st)) (st_trace st)).
Proof.
  intros Hcmp. cbn [loop]. unfold bind, time_time. now rewrite Hcmp.
Qed.

(** The loop does not look at standard input. *)
Lemma loop_with_stdin env input deadline font fuel st :
  loop (with_stdin env input) fuel deadline font st = loop env fuel deadline font st.
Proof. reflexivity. Qed.

Lemma main_with_stdin env input fuel st :
  config (with_stdin env input) = config env ->
  main (with_stdin env input) fuel st = main env fuel st.
Proof.
  intros Hcfg. rewrite !main_eq, Hcfg.
  destruct (config env) as [params|e]; [|reflexivity]. cbv zeta.
  destruct (duration_sec params) as [d|e]; [|reflexivity].
  cbn [with_stdin env_clock].
  destruct (py_float_add _ d) as [deadline|e]; [|reflexivity].
  unfold bind. rewrite !load_font_eq. cbn [with_stdin env_truetype env_load_default].
  apply loop_with_stdin.
Qed.

(** C5. With nothing on standard input, or with [{}], the configuration is
    the empty object, the duration looked up is the default 10, and the
    deadline is the first clock reading plus 10. *)
Theorem default_duration env fuel :
  env_stdin env = "" \/ env_stdin env = "{}" ->
  config env = Ok (PDict []) /\
  duration_sec (PDict []) = Ok (PInt 10) /\
  compute_deadline env (PDict []) initial =
    (Return (FFin (env_clock env 0 + inject_Z 10)), mkState 1 []) /\
  main env fuel initial =
    bind (load_font env)
         (fun font => loop env fuel (FFin (env_clock env 0 + inject_Z 10)) font)
         (mkState 1 []).
Proof.
  intros Hin.
  assert (Hcfg : config env = Ok (PDict [])).
  { unfold config. destruct Hin as [-> | ->]; reflexivity. }
  split; [exact Hcfg|]. split; [reflexivity|]. split; [reflexivity|].
  rewrite main_eq, Hcfg. reflexivity.
Qed.

Lemma default_duration_witness :
  compute_deadline (demo_env "") (PDict []) initial =
    (Return (FFin (demo_clock 0 + inject_Z 10)), mkState 1 []) /\
  compute_deadline (demo_env "{}") (PDict []) initial =
    (Return (FFin (demo_clock 0 + inject_Z 10)), mkState 1 []).
Proof.
  split.
  - exact (proj1 (proj2 (proj2 (default_duration (demo_env "") 0 (or_introl eq_refl))))).
  - exact (proj1 (proj2 (proj2 (default_duration (demo_env "{}") 0 (or_intror eq_refl))))).
Defined.

(** C3. With [duration_sec] equal to zero (the int 0 or a float equal to
    0), and a clock that does not run backwards between its first two
    readings, the deadline is the first reading, the first test of the loop
    fails, and [main] returns having read the clock twice and done nothing
    else: no write, no flush, no sleep. *)
Theorem zero_duration_emits_nothing env d v fuel :
  config env = Ok (PDict d) ->
  dict_lookup d "duration_sec" = Some v ->
  is_zero v = true ->
  (env_clock env 0 <= env_clock env 1)%Q ->
  exists deadline,
    compute_deadline env (PDict d) initial = (Return deadline, mkState 1 []) /\
    fltb (FFin (env_clock env 1)) deadline = false /\
    main env (S fuel) initial = (Return tt, mkState 2 []).
Proof.
  intros Hcfg Hv Hzero Hclock.
  assert (Hadd : exists z, (z == 0)%Q /\
            py_float_add (FFin (env_clock env 0)) v = Ok (FFin (env_clock env 0 + z))).
  { destruct v as [| |n|[| |x]| | |]; try discriminate Hzero; cbn in Hzero.
    - apply Z.eqb_eq in Hzero. subst n. exists (inject_Z 0). split; reflexivity.
    - apply Qeq_bool_iff in Hzero. exists x. split; [exact Hzero | reflexivity]. }
  destruct Hadd as (z & Hz & Hadd).
  assert (Hcmp : fltb (FFin (env_clock env 1)) (FFin (env_clock env 0 + z)) = false).
  { cbn [fltb]. apply Qlt_bool_false. rewrite Hz, Qplus_0_r. exact Hclock. }
  exists (FFin (env_clock env 0 + z)).
  assert (Hdur : duration_sec (PDict d) = Ok v).
  { unfold duration_sec, py_get. now rewrite Hv. }
  split.
  { unfold compute_deadline, bind, time_time, lift. cbn [initial st_reads st_trace].
    now rewrite Hdur, Hadd. }
  split; [exact Hcmp|].
  rewrite main_eq, Hcfg. cbv zeta. rewrite Hdur. cbn [initial st_reads st_trace].
  rewrite Hadd. unfold bind. rewrite load_font_eq.
  now rewrite loop_stops_at_once.
Qed.

Lemma zero_duration_emits_nothing_witness :
  main (demo_env (duration_config "0")) 1 initial = (Return tt, mkState 2 []) /\
  main (demo_env (duration_config "0.0")) 1 initial = (Return tt, mkState 2 []).
Proof.
  split.
  - destruct (zero_duration_emits_nothing (demo_env (duration_config "0"))
                [("duration_sec", PInt 0)] (PInt 0) 0) as (dl & _ & _ & Hm);
      [reflexivity | reflexivity | reflexivity | vm_compute; discriminate | exact Hm].
  - destruct (zero_duration_emits_nothing (demo_env (duration_config "0.0"))
                [("duration_sec", PFloat (FFin (0 # 10)))] (PFloat (FFin (0 # 10))) 0)
      as (dl & _ & _ & Hm);
      [reflexivity | reflexivity | reflexivity | vm_compute; discriminate | exact Hm].
Defined.

(** C9, as stated, fails: a negative int too large for a double is a
    negative numeric duration, and adding it to the clock reading raises
    [OverflowError]; [main] does not return. *)
Lemma negative_duration_counterexample :
  let input := duration_config ("-2" +++ zeros 308) in
  config (demo_env input) = Ok (PDict [("duration_sec", PInt (- (2 * 10 ^ 308)))]) /\
  is_negative (PInt (- (2 * 10 ^ 308))) = true /\
  main (demo_env input) 1 initial = (Throw OverflowError, mkState 1 []).
Proof. vm_compute. repeat split. Qed.

(** C9, amended. A negative duration that float addition accepts (any
    negative float, minus infinity included, or a negative int that converts
    to a double) is not checked: the deadline is the first clock reading plus
    the duration, it is not later than that reading, and, with a clock that
    does not run backwards between its first two readings, [main] returns
    after reading the clock twice with nothing written, as for a zero
    duration.  The last conjunct does not depend on how the sum is rounded:
    the loop stops at its first test for every deadline that is not later
    than the first reading. *)
Theorem negative_duration_emits_nothing env d v fuel :
  config env = Ok (PDict d) ->
  dict_lookup d "duration_sec" = Some v ->
  is_negative v = true ->
  fits_double v = true ->
  (env_clock env 0 <= env_clock env 1)%Q ->
  (exists x,
     py_float_add (FFin (env_clock env 0)) v = Ok (fadd (FFin (env_clock env 0)) x) /\
     compute_deadline env (PDict d) initial =
       (Return (fadd (FFin (env_clock env 0)) x), mkState 1 []) /\
     fltb (FFin (env_clock env 0)) (fadd (FFin (env_clock env 0)) x) = false /\
     main env (S fuel) initial = (Return tt, mkState 2 [])) /\
  (forall deadline font,
     (deadline <= env_clock env 0)%Q ->
     loop env (S fuel) (FFin deadline) font (mkState 1 []) = (Return tt, mkState 2 [])).
Proof.
  intros Hcfg Hv Hneg Hfits Hclock. split.
  - assert (Hadd : exists x,
              py_float_add (FFin (env_clock env 0)) v =
                Ok (fadd (FFin (env_clock env 0)) x) /\
              fltb (FFin (env_clock env 0)) (fadd (FFin (env_clock env 0)) x) = false /\
              fltb (FFin (env_clock env 1)) (fadd (FFin (env_clock env 0)) x) = false).
    { destruct v as [| |n|[|[|]|x]| | |]; try discriminate Hneg;
        cbn [is_negative fits_double] in Hneg, Hfits.
      - exists (FFin (inject_Z n)). cbn [py_float_add]. unfold float_of_int. rewrite Hfits.
        apply Z.ltb_lt in Hneg.
        assert (Hn : (inject_Z n < 0)%Q) by (unfold Qlt; cbn; lia).
        split; [reflexivity|]. cbn [fadd fltb].
        split; apply Qlt_bool_false; lra.
      - exists (FInf true). repeat split.
      - exists (FFin x). apply Qlt_bool_iff in Hneg.
        split; [reflexivity|]. cbn [fadd fltb].
        split; apply Qlt_bool_false; lra. }
    destruct Hadd as (x & Hadd & Hpast & Hcmp).
    exists x.
    assert (Hdur : duration_sec (PDict d) = Ok v).
    { unfold duration_sec, py_get. now rewrite Hv. }
    split; [exact Hadd|]. split.
    { unfold compute_deadline, bind, time_time, lift. cbn [initial st_reads st_trace].
      now rewrite Hdur, Hadd. }
    split; [exact Hpast|].
    rewrite main_eq, Hcfg. cbv zeta. rewrite Hdur. cbn [initial st_reads st_trace].
    rewrite Hadd. unfold bind. rewrite load_font_eq.
    now rewrite loop_stops_at_once.
  - intros deadline font Hdl. apply loop_stops_at_once.
    cbn [st_reads fltb]. apply Qlt_bool_false. lra.
Qed.

Lemma negative_duration_emits_nothing_witness :
  main (demo_env (duration_config "-5")) 1 initial = (Return tt, mkState 2 []) /\
  main (demo_env (duration_config "-Infinity")) 1 initial = (Return tt, mkState 2 []).
Proof.
  split.
  - destruct (negative_duration_emits_nothing (demo_env (duration_config "-5"))
                [("duration_sec", PInt (-5))] (PInt (-5)) 0)
      as ((x & _ & _ & _ & Hm) & _);
      [reflexivity | reflexivity | reflexivity | reflexivity | vm_compute; discriminate
      | exact Hm].
  - destruct (negative_duration_emits_nothing (demo_env (duration_config "-Infinity"))
                [("duration_sec", PFloat (FInf true))] (PFloat (FInf true)) 0)
      as ((x & _ & _ & _ & Hm) & _);
      [reflexivity | reflexivity | reflexivity | reflexivity | vm_compute; discriminate
      | exact Hm].
Defined.

(** C10, as stated, fails: the JSON value [true] is not a number, yet it is
    added to the clock reading as 1 and the program runs for one second. *)
Lemma non_numeric_duration_counterexample :
  let env := demo_env (duration_config "true") in
  config env = Ok (PDict [("duration_sec", PBool true)]) /\
  is_json_number (PBool true) = false /\
  compute_deadline env (PDict [("duration_sec", PBool true)]) initial =
    (Return (FFin (demo_clock 0 + inject_Z 1)), mkState 1 []) /\
  fst (main env 5 initial) = Return tt /\
  List.length (st_trace (snd (main env 5 initial))) = 8%nat.
Proof. vm_compute. repeat split. Qed.

(** C10, amended. When the decoder returns a value that is not an
    object, the lookup raises [AttributeError]; when it returns an object
    whose [duration_sec] is null, a string, an array or an object, the
    addition raises [TypeError].  Either way [main] ends with that exception
    after one reading of the clock, with nothing written.  A boolean is not
    rejected: [true] is added as 1 and [false] as 0, and [main] goes on to
    the loop with that deadline. *)
Theorem bad_configuration_raises env params fuel :
  config env = Ok params ->
  (is_object params = false ->
   main env fuel initial = (Throw AttributeError, mkState 1 [])) /\
  (forall d v,
     params = PDict d -> dict_lookup d "duration_sec" = Some v -> not_addable v = true ->
     main env fuel initial = (Throw TypeError, mkState 1 [])) /\
  (forall d b,
     params = PDict d -> dict_lookup d "duration_sec" = Some (PBool b) ->
     main env fuel initial =
       loop env fuel (FFin (env_clock env 0 + inject_Z (if b then 1 else 0)))
         (chosen_font env) (mkState 1 [])).
Proof.
  intros Hcfg. rewrite main_eq, Hcfg. cbv zeta.
  split; [|split].
  - intros Hobj. destruct params; try discriminate Hobj; reflexivity.
  - intros d v -> Hv Hna. unfold duration_sec, py_get. rewrite Hv.
    destruct v; try discriminate Hna; reflexivity.
  - intros d b -> Hv. unfold duration_sec, py_get. rewrite Hv.
    cbn [py_float_add fadd initial st_reads st_trace].
    unfold bind. rewrite load_font_eq. reflexivity.
Qed.

Lemma bad_configuration_raises_witness :
  main (demo_env "[1, 2]") 5 initial = (Throw AttributeError, mkState 1 []) /\
  main (demo_env (duration_config "null")) 5 initial = (Throw TypeError, mkState 1 []) /\
  main (demo_env (duration_config "true")) 5 initial =
    loop (demo_env (duration_config "true")) 5
      (FFin (env_clock (demo_env (duration_config "true")) 0 + inject_Z (if true then 1 else 0)))
      (chosen_font (demo_env (duration_config "true"))) (mkState 1 []).
Proof.
  split; [|split].
  - destruct (bad_configuration_raises (demo_env "[1, 2]") (PList [PInt 1; PInt 2]) 5 eq_refl)
      as (Hattr & _ & _).
    exact (Hattr eq_refl).
  - destruct (bad_configuration_raises (demo_env (duration_config "null"))
                (PDict [("duration_sec", PNone)]) 5 eq_refl) as (_ & Htype & _).
    exact (Htype [("duration_sec", PNone)] PNone eq_refl eq_refl eq_refl).
  - destruct (bad_configuration_raises (demo_env (duration_config "true"))
                (PDict [("duration_sec", PBool true)]) 5 eq_refl) as (_ & _ & Hbool).
    exact (Hbool [("duration_sec", PBool true)] true eq_refl eq_refl).
Defined.

(** C1, as stated, fails: on the unparsable input [{] the decoder raises and
    [main] ends with [JSONDecodeError] before the loop, while on [{}] it
    runs the loop for ten seconds and returns. *)
Lemma malformed_input_counterexample :
  Json.loads "{" = Raise JSONDecodeError /\
  main (demo_env "{") 50 initial = (Throw JSONDecodeError, initial) /\
  fst (main (demo_env "{}") 50 initial) = Return tt /\
  List.length (st_trace (snd (main (demo_env "{}") 50 initial))) = 80%nat.
Proof. vm_compute. repeat split. Qed.

(** C1, amended. For an input the decoder rejects: when it is empty, [main]
    runs exactly as on [{}] (defaults, no error, the loop runs); when it is
    not empty, [main] ends with the decoder's error before reading the clock
    and with nothing written. *)
Theorem unparsable_input env e fuel :
  Json.loads (env_stdin env) = Raise e ->
  main env fuel initial =
    if String.eqb (env_stdin env) ""
    then main (with_stdin env "{}") fuel initial
    else (Throw e, initial).
Proof.
  intros Hbad. destruct (String.eqb (env_stdin env) "") eqn:Hempty.
  - symmetry. apply main_with_stdin. unfold config. cbn [with_stdin env_stdin].
    now rewrite Hempty.
  - rewrite main_eq. unfold config. now rewrite Hempty, Hbad.
Qed.

Lemma unparsable_input_witness :
  main (demo_env "") 50 initial = main (with_stdin (demo_env "") "{}") 50 initial /\
  main (demo_env "[1,") 50 initial = (Throw JSONDecodeError, initial).
Proof.
  split.
  - pose proof (unparsable_input (demo_env "") JSONDecodeError 50 eq_refl) as Hm.
    destruct (String.eqb (env_stdin (demo_env "")) "") eqn:E in Hm;
      [exact Hm | discriminate E].
  - pose proof (unparsable_input (demo_env "[1,") JSONDecodeError 50 eq_refl) as Hm.
    destruct (String.eqb (env_stdin (demo_env "[1,")) "") eqn:E in Hm;
      [discriminate E | exact Hm].
Defined.

(** * Further properties of [main] *)

(** ** Passes of the loop *)

Lemma tick_fits env font r tr :
  encodings_fit env ->
  tick env font (mkState r tr) =
    (Return tt, mkState (S r) (tr ++ frame_events env (shown env font r))).
Proof.
  intros Hfit.
  destruct (tick_cases env font (mkState r tr)) as [[_ Ht]|[Hlen _]].
  - exact Ht.
  - exfalso. cbv zeta in Hlen. cbn [st_reads] in Hlen.
    pose proof (Hfit _ (render_canvas_ok font
      (format_HMS (env_utcoffset env (Qfloor (env_clock env r)))
                  (Qfloor (env_clock env r))))).
    lia.
Qed.

(** [n] tests in a row pass: the loop has written [n] frames and goes on
    with the rest of its fuel. *)
Lemma loop_prefix env font deadline : forall n fuel r tr,
  encodings_fit env ->
  (forall k, (k < n)%nat -> fltb (FFin (env_clock env (r + 2 * k))) deadline = true) ->
  loop env (n + fuel) deadline font (mkState r tr) =
  loop env fuel deadline font
    (mkState (r + 2 * n) (tr ++ flat_map (frame_events env) (frames_from env font r n))).
Proof.
  induction n as [|n IH]; intros fuel r tr Hfit Hpass.
  - cbn [Nat.add frames_from flat_map]. rewrite app_nil_r.
    replace (r + 2 * 0)%nat with r by lia. reflexivity.
  - cbn [Nat.add loop]. unfold bind at 1. unfold time_time at 1. cbn [st_reads st_trace].
    pose proof (Hpass 0%nat ltac:(lia)) as H0.
    replace (r + 2 * 0)%nat with r in H0 by lia. rewrite H0.
    unfold bind at 1. rewrite tick_fits by exact Hfit.
    rewrite IH; [|exact Hfit|].
    + cbn [frames_from flat_map]. rewrite <- app_assoc.
      replace (S (S r) + 2 * n)%nat with (r + 2 * S n)%nat by lia. reflexivity.
    + intros k Hk. replace (S (S r) + 2 * k)%nat with (r + 2 * S k)%nat by lia.
      apply Hpass. lia.
Qed.

Lemma load_font_chosen env st : load_font env st = (Return (chosen_font env), st).
Proof. apply load_font_eq. Qed.

(** [main] once the deadline is known. *)
Lemma main_with_deadline env params v deadline fuel :
  config env = Ok params ->
  duration_sec params = Ok v ->
  py_float_add (FFin (env_clock env 0)) v = Ok deadline ->
  main env fuel initial = loop env fuel deadline (chosen_font env) (mkState 1 []).
Proof.
  intros Hcfg Hdur Hadd. rewrite main_eq, Hcfg. cbv zeta. rewrite Hdur.
  cbn [initial st_reads st_trace]. rewrite Hadd.
  unfold bind. now rewrite load_font_chosen.
Qed.

Lemma duration_of_key d v :
  dict_lookup d "duration_sec" = Some v -> duration_sec (PDict d) = Ok v.
Proof. intros Hv. unfold duration_sec, py_get. now rewrite Hv. Qed.

(** The raw encoder of the concrete environment fits the header. *)
Lemma raw_fits input : encodings_fit (demo_env input).
Proof.
  intros img (_ & _ & _ & Hlen & _). cbn [demo_env env_png]. unfold raw_encode.
  rewrite raw_length. lia.
Qed.

(** ** Configuration edge cases *)

(** X1. A configuration object without the key [duration_sec], whatever
    else it holds, runs with the default: the deadline is the first clock
    reading plus 10. *)
Theorem missing_key_defaults env d fuel :
  config env = Ok (PDict d) ->
  dict_lookup d "duration_sec" = None ->
  compute_deadline env (PDict d) initial =
    (Return (FFin (env_clock env 0 + inject_Z 10)), mkState 1 []) /\
  main env fuel initial =
    loop env fuel (FFin (env_clock env 0 + inject_Z 10)) (chosen_font env) (mkState 1 []).
Proof.
  intros Hcfg Hnone.
  assert (Hdur : duration_sec (PDict d) = Ok (PInt 10)).
  { unfold duration_sec, py_get. now rewrite Hnone. }
  split.
  - unfold compute_deadline, bind, time_time, lift. cbn [initial st_reads st_trace].
    now rewrite Hdur.
  - now apply main_with_deadline with (params := PDict d) (v := PInt 10).
Qed.

Lemma missing_key_defaults_witness :
  compute_deadline
    (demo_env ("{" +++ String Json.dquote ("fps" +++ String Json.dquote ": 30}")))
    (PDict [("fps", PInt 30)]) initial =
  (Return (FFin (demo_clock 0 + inject_Z 10)), mkState 1 []).
Proof.
  exact (proj1 (missing_key_defaults
    (demo_env ("{" +++ String Json.dquote ("fps" +++ String Json.dquote ": 30}")))
    [("fps", PInt 30)] 0 eq_refl eq_refl)).
Defined.

(** X2. With [duration_sec] NaN (which the decoder accepts) the deadline
    is NaN, every comparison with it is false, and [main] returns at the
    first test with nothing written, whatever the clock does. *)
Theorem nan_duration_emits_nothing env d fuel :
  config env = Ok (PDict d) ->
  dict_lookup d "duration_sec" = Some (PFloat FNan) ->
  compute_deadline env (PDict d) initial = (Return FNan, mkState 1 []) /\
  main env (S fuel) initial = (Return tt, mkState 2 []).
Proof.
  intros Hcfg Hv. pose proof (duration_of_key d _ Hv) as Hdur. split.
  - unfold compute_deadline, bind, time_time, lift. cbn [initial st_reads st_trace].
    now rewrite Hdur.
  - rewrite (main_with_deadline env (PDict d) (PFloat FNan) FNan) by (auto; reflexivity).
    now rewrite loop_stops_at_once.
Qed.

Lemma nan_duration_emits_nothing_witness :
  main (demo_env (duration_config "NaN")) 1 initial = (Return tt, mkState 2 []).
Proof.
  exact (proj2 (nan_duration_emits_nothing (demo_env (duration_config "NaN"))
                  [("duration_sec", PFloat FNan)] 0 eq_refl eq_refl)).
Defined.

(** X3. With an infinite [duration_sec] (the literal [Infinity], or a float
    literal beyond the doubles) every test passes: [main] never returns; with
    fuel for [fuel] passes it has written [fuel] frames and is still
    looping. *)
Theorem infinite_duration_never_returns env d fuel :
  config env = Ok (PDict d) ->
  dict_lookup d "duration_sec" = Some (PFloat (FInf false)) ->
  encodings_fit env ->
  main env fuel initial =
    (OutOfFuel,
     mkState (1 + 2 * fuel)
       (flat_map (frame_events env) (frames_from env (chosen_font env) 1 fuel))).
Proof.
  intros Hcfg Hv Hfit. pose proof (duration_of_key d _ Hv) as Hdur.
  rewrite (main_with_deadline env (PDict d) (PFloat (FInf false)) (FInf false))
    by (auto; reflexivity).
  replace fuel with (fuel + 0)%nat at 1 by lia.
  rewrite loop_prefix; [reflexivity | exact Hfit | reflexivity].
Qed.

Lemma infinite_duration_never_returns_witness :
  main (demo_env (duration_config "1e999")) 2 initial =
    (OutOfFuel,
     mkState (1 + 2 * 2)
       (flat_map (frame_events (demo_env (duration_config "1e999")))
          (frames_from (demo_env (duration_config "1e999"))
             (chosen_font (demo_env (duration_config "1e999"))) 1 2))).
Proof.
  exact (infinite_duration_never_returns (demo_env (duration_config "1e999"))
           [("duration_sec", PFloat (FInf false))] 2 eq_refl eq_refl
           (raw_fits (duration_config "1e999"))).
Defined.

(** X7. An integer [duration_sec] too large for a double, of either sign,
    is not a long duration: the addition raises [OverflowError] and [main]
    ends after one reading of the clock with nothing written. *)
Theorem oversized_int_duration_raises env d n fuel :
  config env = Ok (PDict d) ->
  dict_lookup d "duration_sec" = Some (PInt n) ->
  DBL_OVERFLOW <= Z.abs n ->
  main env fuel initial = (Throw OverflowError, mkState 1 []).
Proof.
  intros Hcfg Hv Hbig. pose proof (duration_of_key d _ Hv) as Hdur.
  rewrite main_eq, Hcfg. cbv zeta. rewrite Hdur.
  cbn [py_float_add]. unfold float_of_int.
  replace (Z.abs n <? DBL_OVERFLOW) with false by (symmetry; apply Z.ltb_ge; exact Hbig).
  reflexivity.
Qed.

Lemma oversized_int_duration_raises_witness :
  main (demo_env (duration_config ("2" +++ zeros 308))) 3 initial =
    (Throw OverflowError, mkState 1 []).
Proof.
  refine (oversized_int_duration_raises (demo_env (duration_config ("2" +++ zeros 308)))
            [("duration_sec", PInt (2 * 10 ^ 308))] (2 * 10 ^ 308) 3 _ eq_refl _).
  - vm_compute. reflexivity.
  - vm_compute. discriminate.
Defined.

(** X6. Input made of white space only, unless it is empty, is not taken
    for a missing configuration: the decoder rejects it and [main] ends with
    [JSONDecodeError] before reading the clock. *)
Theorem blank_input_rejected env fuel :
  all_ws (env_stdin env) = true ->
  env_stdin env <> "" ->
  main env fuel initial = (Throw JSONDecodeError, initial).
Proof.
  intros Hws Hne.
  assert (Hskip : forall s, all_ws s = true -> Json.skip_ws s = "").
  { induction s as [|c r IH]; cbn; [reflexivity|].
    intros Hc. apply andb_true_iff in Hc. destruct Hc as [Hc Hr].
    rewrite Hc. now apply IH. }
  rewrite main_eq. unfold config.
  destruct (String.eqb_spec (env_stdin env) ""); [contradiction|].
  unfold Json.loads. rewrite (Hskip _ Hws). reflexivity.
Qed.

Lemma blank_input_rejected_witness :
  main (demo_env (String "010" " ")) 5 initial = (Throw JSONDecodeError, initial).
Proof.
  refine (blank_input_rejected (demo_env (String "010" " ")) 5 eq_refl _).
  discriminate.
Defined.

(** ** The whole run, from the clock *)

(** X4. The run of [main] read off the clock.  When the encoder fits the
    header, the tests at readings 1, 3, ..., [2n - 1] find the clock before
    the deadline and the test at reading [2n + 1] does not, then [main]
    returns (with fuel for more than [n] passes) after [2n + 2] readings,
    having written exactly [n] frames; the k-th frame shows the time of
    reading [2k + 2], the reading after its test, and is followed by its
    sleep. *)
Theorem run_of_main env params v deadline n fuel :
  config env = Ok params ->
  duration_sec params = Ok v ->
  py_float_add (FFin (env_clock env 0)) v = Ok deadline ->
  encodings_fit env ->
  (forall k, (k < n)%nat -> fltb (FFin (env_clock env (1 + 2 * k))) deadline = true) ->
  fltb (FFin (env_clock env (1 + 2 * n))) deadline = false ->
  (n < fuel)%nat ->
  main env fuel initial =
    (Return tt,
     mkState (2 + 2 * n)
       (flat_map (frame_events env) (frames_from env (chosen_font env) 1 n))).
Proof.
  intros Hcfg Hdur Hadd Hfit Hpass Hstop Hfuel.
  rewrite (main_with_deadline env params v deadline) by assumption.
  replace fuel with (n + S (fuel - S n))%nat by lia.
  rewrite loop_prefix by assumption.
  now rewrite loop_stops_at_once.
Qed.

Lemma run_of_main_witness :
  main (demo_env (duration_config "1")) 10 initial =
    (Return tt,
     mkState (2 + 2 * 2)
       (flat_map (frame_events (demo_env (duration_config "1")))
          (frames_from (demo_env (duration_config "1"))
             (chosen_font (demo_env (duration_config "1"))) 1 2))).
Proof.
  refine (run_of_main (demo_env (duration_config "1")) (PDict [("duration_sec", PInt 1)])
            (PInt 1) (FFin (demo_clock 0 + inject_Z 1)) 2 10 eq_refl eq_refl eq_refl
            (raw_fits (duration_config "1")) _ _ _).
  - intros k Hk. destruct k as [|[|k]]; [vm_compute; reflexivity | vm_compute; reflexivity | lia].
  - vm_compute. reflexivity.
  - lia.
Defined.

Lemma first_failing_test : forall N (P : nat -> bool),
  P N = false ->
  exists n, (n <= N)%nat /\ P n = false /\ forall k, (k < n)%nat -> P k = true.
Proof.
  induction N as [|N IH]; intros P HN.
  - exists 0%nat. repeat split; [lia | exact HN | intros k Hk; lia].
  - destruct (P 0%nat) eqn:E0.
    + destruct (IH (fun k => P (S k)) HN) as (n & Hn & Hf & Hp).
      exists (S n). repeat split; [lia | exact Hf |].
      intros [|k] Hk; [exact E0 | apply Hp; lia].
    + exists 0%nat. repeat split; [lia | exact E0 | intros k Hk; lia].
Qed.

(** When each pass lets a quarter of a second go by, the [k]-th test is at
    least [k / 4] seconds after the first reading. *)
Lemma tests_advance env :
  (env_clock env 0 <= env_clock env 1)%Q ->
  (forall k, env_clock env (1 + 2 * k) + (1 # 4) <= env_clock env (3 + 2 * k))%Q ->
  forall k, (env_clock env 0 + inject_Z (Z.of_nat k) * (1 # 4) <= env_clock env (1 + 2 * k))%Q.
Proof.
  intros H0 Hstep. induction k as [|k IH].
  - cbn [Z.of_nat Nat.mul Nat.add]. change (inject_Z 0) with 0%Q. lra.
  - specialize (Hstep k).
    replace (1 + 2 * S k)%nat with (3 + 2 * k)%nat by lia.
    rewrite Nat2Z.inj_succ. unfold Z.succ. rewrite inject_Z_plus.
    change (inject_Z 1) with 1%Q. lra.
Qed.

(** X5. The loop ends.  For a finite deadline, a clock that does not run
    backwards before the first test and lets at least the quarter of a
    second of the sleep go by from one test to the next, and an encoder that
    fits the header, [main] returns, and the number of frames it has written
    is at most four times the duration, rounded up. *)
Theorem loop_ends_within_duration env params v dl fuel :
  config env = Ok params ->
  duration_sec params = Ok v ->
  py_float_add (FFin (env_clock env 0)) v = Ok (FFin dl) ->
  encodings_fit env ->
  (env_clock env 0 <= env_clock env 1)%Q ->
  (forall k, env_clock env (1 + 2 * k) + (1 # 4) <= env_clock env (3 + 2 * k))%Q ->
  (Z.to_nat (Qceiling (4 * (dl - env_clock env 0))) < fuel)%nat ->
  exists n,
    (n <= Z.to_nat (Qceiling (4 * (dl - env_clock env 0))))%nat /\
    main env fuel initial =
      (Return tt,
       mkState (2 + 2 * n)
         (flat_map (frame_events env) (frames_from env (chosen_font env) 1 n))).
Proof.
  intros Hcfg Hdur Hadd Hfit H0 Hstep Hfuel.
  set (N := Z.to_nat (Qceiling (4 * (dl - env_clock env 0)))) in *.
  assert (HN : fltb (FFin (env_clock env (1 + 2 * N))) (FFin dl) = false).
  { cbn [fltb]. apply Qlt_bool_false.
    pose proof (tests_advance env H0 Hstep N) as Hadv.
    pose proof (Qle_ceiling (4 * (dl - env_clock env 0))) as Hceil.
    assert (Hnat : (inject_Z (Qceiling (4 * (dl - env_clock env 0))) <= inject_Z (Z.of_nat N))%Q).
    { rewrite <- Zle_Qle. subst N. lia. }
    lra. }
  destruct (first_failing_test N
              (fun k => fltb (FFin (env_clock env (1 + 2 * k))) (FFin dl)) HN)
    as (n & Hn & Hstop & Hpass).
  exists n. split; [exact Hn|].
  rewrite (main_with_deadline env params v (FFin dl)) by assumption.
  replace fuel with (n + S (fuel - S n))%nat by lia.
  rewrite loop_prefix by assumption.
  now rewrite loop_stops_at_once.
Qed.

Lemma demo_clock_step k : (demo_clock (1 + 2 * k) + (1 # 4) <= demo_clock (3 + 2 * k))%Q.
Proof.
  unfold demo_clock.
  replace (Z.of_nat (3 + 2 * k)) with (Z.of_nat (1 + 2 * k) + 2) by lia.
  rewrite inject_Z_plus. change (inject_Z 2) with 2%Q. lra.
Qed.

Lemma loop_ends_within_duration_witness :
  exists n,
    (n <= 4)%nat /\
    main (demo_env (duration_config "1")) 10 initial =
      (Return tt,
       mkState (2 + 2 * n)
         (flat_map (frame_events (demo_env (duration_config "1")))
            (frames_from (demo_env (duration_config "1"))
               (chosen_font (demo_env (duration_config "1"))) 1 n))).
Proof.
  destruct (loop_ends_within_duration (demo_env (duration_config "1"))
              (PDict [("duration_sec", PInt 1)]) (PInt 1) (demo_clock 0 + inject_Z 1) 10
              eq_refl eq_refl eq_refl (raw_fits (duration_config "1")))
    as (n & Hn & Hm).
  - vm_compute. discriminate.
  - exact demo_clock_step.
  - vm_compute. lia.
  - exists n. split; [|exact Hm].
    vm_compute in Hn. exact Hn.
Defined.

(** ** Errors and output *)

(** Once the loop runs, the only exception of the program itself is the
    one of the length header. *)
Lemma loop_raises_only_struct_error env font deadline : forall fuel st e st',
  loop env fuel deadline font st = (Throw e, st') -> e = StructError.
Proof.
  induction fuel as [|fuel IH]; intros st e st'; [discriminate|].
  cbn [loop]. unfold bind at 1. unfold time_time at 1.
  destruct (fltb _ deadline); [|discriminate].
  unfold bind at 1.
  destruct (tick_cases env font (mkState (S (st_reads st)) (st_trace st)))
    as [[_ Ht]|[_ Ht]]; cbv zeta in Ht; rewrite Ht.
  - apply IH.
  - now intros [= <- _].
Qed.

(** X8. A run that ends with an exception other than the [struct.error] of
    the length header ended at start-up: nothing was written to standard
    output (no frame, no partial frame), and the clock was read at most
    once. *)
Theorem startup_errors_write_nothing env fuel e :
  fst (main env fuel initial) = Throw e ->
  e <> StructError ->
  st_trace (snd (main env fuel initial)) = [] /\
  (st_reads (snd (main env fuel initial)) <= 1)%nat.
Proof.
  rewrite main_eq.
  destruct (config env) as [params|e0]; [|cbn; intros; split; [reflexivity | lia]].
  cbv zeta.
  destruct (duration_sec params) as [v|e0]; [|cbn; intros; split; [reflexivity | lia]].
  destruct (py_float_add _ v) as [deadline|e0]; [|cbn; intros; split; [reflexivity | lia]].
  unfold bind. rewrite load_font_chosen.
  destruct (loop env fuel deadline (chosen_font env) _) as [[[]|e1|] st1] eqn:El;
    cbn [fst]; try discriminate.
  intros [= ->] Hne. apply loop_raises_only_struct_error in El. contradiction.
Qed.

Lemma startup_errors_write_nothing_witness :
  st_trace (snd (main (demo_env (duration_config "[]")) 5 initial)) = [] /\
  (st_reads (snd (main (demo_env (duration_config "[]")) 5 initial)) <= 1)%nat.
Proof.
  apply (startup_errors_write_nothing (demo_env (duration_config "[]")) 5 TypeError).
  - vm_compute. reflexivity.
  - discriminate.
Defined.
